(** * slr-kit: the term store ([words.py]) and the classification session
      ([fawoc.py])

    A shallow embedding of the interactive term-classification engine.

    - Python [int] is [Z]; [str] is [string] (ASCII characters).
    - A call that may raise is a value of [result]: [Ok v] when it returns
      [v], [Raise e] when the exception [e] leaves the call. No caller in
      the program handles the exceptions modelled here, except the
      [try] of [from_csv]: the program ends with them.
    - The store is mutated in place by the program; here every method that
      mutates [self] returns the new store.

    [fawoc.py] is written against the class [TermList] of [terms.py], which
    is not among the sources; the store of this repository is [WordList] of
    [words.py], whose methods [mark_word] and [get_last_classified_word]
    are the ones [TermList.classify_term] and
    [TermList.get_last_classified_term] name, and whose fields [word] and
    [group] are [Term.string] and [Term.label]. [undo_with] takes the
    lookup of the last classified term as an argument: [undo] is its
    instance for the lookup of [words.py], [last_classified] is the lookup
    as the spec describes it. *)

From Stdlib Require Import ZArith List String Ascii Bool Arith Lia.
From Stdlib Require Import Sorted Permutation.
From Stdlib Require DecimalString DecimalN DecimalPos.
Import ListNotations.

Open Scope string_scope.
Open Scope Z_scope.

(** ** Exceptions and results *)

Inductive exn : Type :=
| ValueError
| AttributeError
| TypeError.

Inductive result (A : Type) : Type :=
| Ok (a : A)
| Raise (e : exn).

Arguments Ok {A} a.
Arguments Raise {A} e.

Definition bind {A B : Type} (r : result A) (k : A -> result B) : result B :=
  match r with
  | Ok a => k a
  | Raise e => Raise e
  end.

Notation "x <- r ;; k" := (bind r (fun x => k))
  (at level 61, r at next level, right associativity).
Notation "' pat <- r ;; k" := (bind r (fun x => match x with pat => k end))
  (at level 61, pat pattern, r at next level, right associativity).

(** [try: r except ValueError: h] *)
Definition try_except {A : Type} (r : result A) (h : result A) : result A :=
  match r with
  | Ok a => Ok a
  | Raise ValueError => h
  | Raise e => Raise e
  end.

(** ** [words.py]: [Label] *)

Inductive Label : Type :=
| NONE
| KEYWORD
| NOISE
| RELEVANT
| NOT_RELEVANT
| POSTPONED.

(** The tuple [(name, default_key)] each member is created with. *)
Definition Label_value (l : Label) : string * string :=
  match l with
  | NONE => ("", "")
  | KEYWORD => ("keyword", "k")
  | NOISE => ("noise", "n")
  | RELEVANT => ("relevant", "r")
  | NOT_RELEVANT => ("not-relevant", "x")
  | POSTPONED => ("postponed", "p")
  end.

Definition Label_name (l : Label) : string := fst (Label_value l).
Definition Label_key (l : Label) : string := snd (Label_value l).

(** [for label in Label]: the members in definition order. *)
Definition Label_members : list Label :=
  [NONE; KEYWORD; NOISE; RELEVANT; NOT_RELEVANT; POSTPONED].

Definition Label_eqb (a b : Label) : bool :=
  match a, b with
  | NONE, NONE | KEYWORD, KEYWORD | NOISE, NOISE
  | RELEVANT, RELEVANT | NOT_RELEVANT, NOT_RELEVANT
  | POSTPONED, POSTPONED => true
  | _, _ => false
  end.

Definition get_from_key (key : string) : result Label :=
  match find (fun label => String.eqb (Label_key label) key) Label_members with
  | Some label => Ok label
  | None => Raise ValueError
  end.

Definition get_from_name (name : string) : result Label :=
  match find (fun label => String.eqb (Label_name label) name) Label_members with
  | Some label => Ok label
  | None => Raise ValueError
  end.

(** ** [words.py]: [Word] and [WordList] *)

(** [count] holds the text of the csv field [from_csv] stores in it. *)
Record Word : Type := mkWord {
  index : Z;
  word : string;
  count : string;
  group : Label;
  order : Z;
  related : string
}.

Definition is_grouped (w : Word) : bool := negb (Label_eqb (group w) NONE).

Record WordList : Type := mkWordList {
  items : list Word;
  csv_header : option (list string)
}.

(** [max(w.order for w in self.items)]: [ValueError] on an empty sequence. *)
Definition py_max (l : list Z) : result Z :=
  match l with
  | [] => Raise ValueError
  | x :: xs => Ok (fold_left Z.max xs x)
  end.

Definition get_last_classified_order (self : WordList) : result Z :=
  order <- py_max (map order (items self)) ;;
  let order := if order <? 0 then -1 else order in
  Ok order.

(** [for w in self.items: if w.order == last: return w / else: return None] *)
Definition get_last_classified_word (self : WordList)
  : result (option Word) :=
  last <- get_last_classified_order self ;;
  Ok (find (fun w => order w =? last) (items self)).

(** The loop of [mark_word]: the first item whose [word] is the one looked
    for has its [group], [order] and [related] assigned, then [break]. *)
Fixpoint mark_word_loop (l : list Word) (word' : string) (marker : Label)
  (order' : Z) (related' : string) : list Word :=
  match l with
  | [] => []
  | w :: rest =>
      if String.eqb (word w) word' then
        mkWord (index w) (word w) (count w) marker order' related' :: rest
      else
        w :: mark_word_loop rest word' marker order' related'
  end.

Definition mark_word (self : WordList) (word' : string) (marker : Label)
  (order' : Z) (related' : string) : result WordList :=
  Ok (mkWordList (mark_word_loop (items self) word' marker order' related')
                 (csv_header self)).

(** *** [str.split()] and [_word_contains] *)

(** [str.isspace] on an ASCII character: tab, line feed, vertical tab, form
    feed, carriage return, the four separators [\x1c]..[\x1f] and space. *)
Definition isspace (c : ascii) : bool :=
  let n := nat_of_ascii c in
  (((9 <=? n) && (n <=? 13)) || ((28 <=? n) && (n <=? 32)))%nat.

(** [str.split()] with no separator: the maximal runs of characters that are
    not whitespace, in order; [tok] is the run being read. *)
Fixpoint split_from (tok : string) (s : string) : list string :=
  match s with
  | EmptyString =>
      match tok with
      | EmptyString => []
      | _ => [tok]
      end
  | String c s' =>
      if isspace c then
        match tok with
        | EmptyString => split_from "" s'
        | _ => tok :: split_from "" s'
        end
      else
        split_from (tok ++ String c "") s'
  end.

Definition split (s : string) : list string := split_from "" s.

(** [any([substring == word for word in string.split()])] *)
Definition _word_contains (string' substring : string) : bool :=
  existsb (fun word => String.eqb substring word) (split string').

(** *** [return_related_items], [count_classified], [count_by_class] *)

(** [w.order is not None]: [order] holds an [int] in every [Word] that
    [from_csv] builds and [mark_word] writes, and an [int] is not [None]. *)
Definition order_is_not_None (w : Word) : bool := true.

(** The loop of [return_related_items], with its two accumulators. *)
Fixpoint return_related_items_loop (l : list Word) (key : string)
  (label : Label) (containing not_containing : list string)
  : list string * list string :=
  match l with
  | [] => (containing, not_containing)
  | w :: rest =>
      if negb (Label_eqb (group w) label) || order_is_not_None w then
        return_related_items_loop rest key label containing not_containing
      else if _word_contains (word w) key then
        return_related_items_loop rest key label
          (containing ++ [word w]) not_containing
      else
        return_related_items_loop rest key label
          containing (not_containing ++ [word w])
  end.

Definition return_related_items (self : WordList) (key : string)
  (label : Label) : result (list string * list string) :=
  Ok (return_related_items_loop (items self) key label [] []).

Definition count_classified (self : WordList) : Z :=
  Z.of_nat (List.length (filter is_grouped (items self))).

Definition count_by_class (self : WordList) (cls : Label) : Z :=
  Z.of_nat (List.length (filter (fun w => Label_eqb (group w) cls)
                                (items self))).

(** *** [int(str)] and [from_csv] *)

Definition isdigit (c : ascii) : bool :=
  let n := nat_of_ascii c in ((48 <=? n) && (n <=? 57))%nat.

Definition digit_value (c : ascii) : Z := Z.of_nat (nat_of_ascii c) - 48.

(** The whitespace that [int] skips before and after the numeral of an
    ASCII [str]: tab, line feed, vertical tab, form feed, carriage return
    and space. The separators [\x1c]..[\x1f], whitespace for [str.split],
    are not skipped. *)
Definition int_isspace (c : ascii) : bool :=
  let n := nat_of_ascii c in
  (((9 <=? n) && (n <=? 13)) || (n =? 32))%nat.

Fixpoint int_skip_leading (s : string) : string :=
  match s with
  | EmptyString => ""
  | String c s' => if int_isspace c then int_skip_leading s' else s
  end.

Fixpoint int_skip_trailing (s : string) : string :=
  match s with
  | EmptyString => ""
  | String c s' =>
      match int_skip_trailing s' with
      | EmptyString => if int_isspace c then "" else String c ""
      | r => String c r
      end
  end.

Definition int_skip_space (s : string) : string :=
  int_skip_trailing (int_skip_leading s).

(** Decimal digits, a single underscore allowed between two digits. *)
Fixpoint int_digits (acc : Z) (s : string) : option Z :=
  match s with
  | EmptyString => Some acc
  | String c s' =>
      if isdigit c then int_digits (10 * acc + digit_value c) s'
      else if Ascii.eqb c "_" then
        match s' with
        | String d _ => if isdigit d then int_digits acc s' else None
        | EmptyString => None
        end
      else None
  end.

Definition int_literal (s : string) : option Z :=
  match s with
  | String c _ => if isdigit c then int_digits 0 s else None
  | EmptyString => None
  end.

(** [int(s)] for a [str]: surrounding whitespace is dropped, then an optional
    sign and a decimal literal are read; anything else is a [ValueError]. *)
Definition int (s : string) : result Z :=
  let parsed :=
    match int_skip_space s with
    | String "+" s' => int_literal s'
    | String "-" s' => option_map Z.opp (int_literal s')
    | s' => int_literal s'
    end in
  match parsed with
  | Some z => Ok z
  | None => Raise ValueError
  end.

(** A row as [csv.DictReader] yields it for a file whose header has the
    columns [keyword], [count], [group] and [order], the row having a value
    for each of them (a row shorter than the header, for which the reader
    gives [None], is not a [Row]); [related] is there only when the header
    has that column. *)
Record Row : Type := mkRow {
  row_keyword : string;
  row_count : string;
  row_group : string;
  row_order : string;
  row_related : option string
}.

(** What [csv.DictReader] reads from the file: the field names and the
    rows. *)
Record CsvFile : Type := mkCsvFile {
  fieldnames : list string;
  rows : list Row
}.

(** The body of the loop of [from_csv]: the [Word] built from one row. *)
Definition from_csv_item (row : Row) : result Word :=
  let order_value := row_order row in
  order <- (if String.eqb order_value "" then Ok (-1)
            else int order_value) ;;
  let related :=
    match row_related row with
    | Some r => r
    | None => ""
    end in
  group <- try_except (get_from_name (row_group row))
                      (get_from_key (row_group row)) ;;
  Ok (mkWord 0 (row_keyword row) (row_count row) group order related).

Fixpoint from_csv_loop (l : list Row) (items : list Word)
  : result (list Word) :=
  match l with
  | [] => Ok items
  | row :: rest =>
      item <- from_csv_item row ;;
      from_csv_loop rest (items ++ [item])
  end.

(** [from_csv] assigns [self.csv_header] and [self.items] after the loop;
    the pair it returns is made of these two fields. *)
Definition from_csv (self : WordList) (infile : CsvFile) : result WordList :=
  let header := fieldnames infile in
  items <- from_csv_loop (rows infile) [] ;;
  let header :=
    if existsb (String.eqb "related") header then header
    else (header ++ ["related"])%list in
  Ok (mkWordList items (Some header)).

(** ** [fawoc.py]: the classification session *)

(** The work queue [to_classify]. [fawoc.py] handles it as a [TermList], an
    object whose [items] are terms of the store; they are referred to here
    by their strings. What [return_related_items] of [words.py] yields is a
    pair of plain lists of strings, and so is their concatenation: a plain
    list has no [items]. *)
Inductive Queue : Type :=
| plain_list (strings : list string)
| term_list (strings : list string).

(** [terms.classify_term] and [terms.get_last_classified_term], under the
    names [fawoc.py] calls them by. *)
Definition classify_term := mark_word.
Definition get_last_classified_term := get_last_classified_word.

(** Modelled from the spec: [TermList.get_from_label], which [do_postpone]
    calls, has no counterpart in [words.py]; it returns all terms currently
    carrying [label], in the store's load order. *)
Definition get_from_label (self : WordList) (label : Label) : list string :=
  map word (filter (fun w => Label_eqb (group w) label) (items self)).



(** [classify] returns [(to_classify, related_items_count, sort_word_key)];
    the store [terms] it has mutated is returned with them. *)
Definition classify (label : Label) (terms : WordList) (review : Label)
  (evaluated_term : Word) (sort_word_key : string) (related_items_count : Z)
  : result (WordList * (Queue * Z * string)) :=
  last <- get_last_classified_order terms ;;
  terms <- classify_term terms (word evaluated_term) label (last + 1)
             sort_word_key ;;
  let sort_word_key :=
    if related_items_count <=? 0 then word evaluated_term
    else sort_word_key in
  '(containing, not_containing) <-
     return_related_items terms sort_word_key review ;;
  let related_items_count :=
    if related_items_count <=? 0
    then Z.of_nat (List.length containing) + 1
    else related_items_count in
  let to_classify := plain_list (containing ++ not_containing) in
  let related_items_count := related_items_count - 1 in
  Ok (terms, (to_classify, related_items_count, sort_word_key)).

(** [do_classify] returns [(word, related_count, sort_key, to_classify)]. *)
Definition do_classify (terms : WordList) (word' : Word) (label : Label)
  (review : Label) (sort_key : string) (related_count : Z)
  : result (WordList * (Word * Z * string * Queue)) :=
  '(terms, (to_classify, related_count, sort_key)) <-
     classify label terms review word' sort_key related_count ;;
  Ok (terms, (word', related_count, sort_key, to_classify)).

(** [do_postpone] returns [(word, related_count, to_classify)]. *)
Definition do_postpone (terms : WordList) (word' : Word) (review : Label)
  (sort_key : string) (related_count : Z)
  : result (WordList * (Word * Z * Queue)) :=
  last <- get_last_classified_order terms ;;
  terms <- classify_term terms (word word') POSTPONED (last + 1) sort_key ;;
  let related_count := related_count - 1 in
  to_classify <-
    (if 0 <? related_count then
       '(cont, not_cont) <- return_related_items terms sort_key review ;;
       Ok (plain_list (cont ++ not_cont))
     else
       Ok (term_list (get_from_label terms review))) ;;
  Ok (terms, (word', related_count, to_classify)).

(** [to_classify.items.insert(0, last_word)]: the term is put in front of
    the items of the queue; a plain list has no attribute [items]. *)
Definition items_insert_front (to_classify : Queue) (last_word : Word)
  : result Queue :=
  match to_classify with
  | term_list strings => Ok (term_list (word last_word :: strings))
  | plain_list _ => Raise AttributeError
  end.

(** [undo], the method [terms.get_last_classified_term] being given. It
    returns [(to_classify, related_items_count, sort_word_key)]. The
    fields of [last_word] are read before the store is written, and
    [classify_term] is called without [related], whose default is [''].
    The calls to [logger] and [profiler] write no session state. *)
Definition undo_with
  (get_last_classified_term : WordList -> result (option Word))
  (terms : WordList) (to_classify : Queue)
  (review : Label) (sort_word_key : string) (related_items_count : Z)
  : result (WordList * (Queue * Z * string)) :=
  last_word <- get_last_classified_term terms ;;
  match last_word with
  | None => Ok (terms, (to_classify, related_items_count, sort_word_key))
  | Some last_word =>
      let related := related last_word in
      terms <- classify_term terms (word last_word) review (-1) "" ;;
      '(to_classify, related_items_count, sort_word_key) <-
        (if String.eqb related sort_word_key then
           let related_items_count := related_items_count + 1 in
           to_classify <- items_insert_front to_classify last_word ;;
           Ok (to_classify, related_items_count, sort_word_key)
         else
           let sort_word_key := related in
           '(containing, not_containing) <-
              return_related_items terms sort_word_key review ;;
           let related_items_count := Z.of_nat (List.length containing) in
           let to_classify := plain_list (containing ++ not_containing) in
           Ok (to_classify, related_items_count, sort_word_key)) ;;
      let related_items_count :=
        if String.eqb sort_word_key "" then 0 else related_items_count in
      Ok (terms, (to_classify, related_items_count, sort_word_key))
  end.

(** [undo] over the store of [words.py]. *)
Definition undo : WordList -> Queue -> Label -> string -> Z ->
                  result (WordList * (Queue * Z * string)) :=
  undo_with get_last_classified_term.

(** *** A session as a sequence of actions *)

Record Session : Type := mkSession {
  terms : WordList;
  to_classify : Queue;
  sort_word_key : string;
  related_items_count : Z
}.

(** One key press of the main loop of [curses_main]: a classifying key, [p]
    or [u]. The term being evaluated is given with the action. Before the
    key is read the loop clears [sort_word_key] when no group is active. *)
Inductive Action : Type :=
| Classify (label : Label) (evaluated_word : Word)
| Postpone (evaluated_word : Word)
| Undo.

Definition step (review : Label) (s : Session) (a : Action)
  : result Session :=
  let sort_word_key :=
    if related_items_count s <=? 0 then "" else sort_word_key s in
  match a with
  | Classify label evaluated_word =>
      '(terms, (_, related_items_count, sort_word_key, to_classify)) <-
         do_classify (terms s) evaluated_word label review
           sort_word_key (related_items_count s) ;;
      Ok (mkSession terms to_classify sort_word_key related_items_count)
  | Postpone evaluated_word =>
      '(terms, (_, related_items_count, to_classify)) <-
         do_postpone (terms s) evaluated_word review
           sort_word_key (related_items_count s) ;;
      Ok (mkSession terms to_classify sort_word_key related_items_count)
  | Undo =>
      '(terms, (to_classify, related_items_count, sort_word_key)) <-
         undo (terms s) (to_classify s) review
           sort_word_key (related_items_count s) ;;
      Ok (mkSession terms to_classify sort_word_key related_items_count)
  end.

Fixpoint run (review : Label) (s : Session) (actions : list Action)
  : result Session :=
  match actions with
  | [] => Ok s
  | a :: rest => s' <- step review s a ;; run review s' rest
  end.

(** ** Specification-side notions *)

(** A whitespace-separated component token of [s]: a non-empty run of
    characters of [s] without whitespace, with whitespace or an end of [s]
    on either side. *)
Fixpoint no_space (s : string) : bool :=
  match s with
  | EmptyString => true
  | String c s' => negb (isspace c) && no_space s'
  end.

Fixpoint ends_with_space_or_empty (s : string) : bool :=
  match s with
  | EmptyString => true
  | String c EmptyString => isspace c
  | String _ s' => ends_with_space_or_empty s'
  end.

Definition starts_with_space_or_empty (s : string) : bool :=
  match s with
  | EmptyString => true
  | String c _ => isspace c
  end.

Definition is_token (k s : string) : Prop :=
  k <> "" /\ no_space k = true /\
  exists before after : string,
    s = before ++ k ++ after /\
    ends_with_space_or_empty before = true /\
    starts_with_space_or_empty after = true.

(** No two terms hold the same non-negative order. *)
Definition unique_orders (l : list Word) : Prop :=
  NoDup (filter (fun o => 0 <=? o) (map order l)).

(** What [mark_word] assigns to a term. *)
Definition marked (w : Word) (marker : Label) (order' : Z)
  (related' : string) : Word :=
  mkWord (index w) (word w) (count w) marker order' related'.

(** Rows that [from_csv] reads. *)

(** The [group] field of a row names a [Label], by name or by key. *)
Definition label_recognized (g : string) : Prop :=
  exists l : Label, Label_name l = g \/ Label_key l = g.

(** The [order] field of a row is empty or an integer that [int] reads. *)
Definition order_readable (o : string) : Prop :=
  o = "" \/ exists z : Z, int o = Ok z.

(** What a [Word] built from a row holds. *)
Definition built_from (row : Row) (w : Word) : Prop :=
  index w = 0 /\
  word w = row_keyword row /\
  count w = row_count row /\
  (Label_name (group w) = row_group row \/
   Label_key (group w) = row_group row) /\
  (row_order row = "" /\ order w = -1 \/
   row_order row <> "" /\ int (row_order row) = Ok (order w)) /\
  related w = match row_related row with Some r => r | None => "" end.

(** ** More of [words.py] and [fawoc.py] *)

(** *** [to_csv] *)

(** [str(n)] for an [int] that is not negative: its decimal digits. *)
Definition str_nonneg (z : Z) : string :=
  DecimalString.NilZero.string_of_uint (N.to_uint (Z.to_N z)).

(** The dict that the loop of [to_csv] passes to [writer.writerow] for one
    item. *)
Definition to_csv_item (w : Word) : Row :=
  let order := if 0 <=? order w then str_nonneg (order w) else "" in
  mkRow (word w) (count w) (Label_name (group w)) order (Some (related w)).

(** The dicts of the items of a store, in order: the rows [to_csv] writes
    when [writer.writerow] accepts each of them. *)
Definition to_csv_rows (self : WordList) : list Row :=
  map to_csv_item (items self).

(** The keys of the dict of an item. *)
Definition item_keys : list string :=
  ["keyword"; "count"; "group"; "order"; "related"].

(** [csv.DictWriter.writerow]: a dict with a key that is not one of the
    field names is refused with [ValueError]. *)
Definition writerow (fieldnames : list string) (row : Row) : result Row :=
  if forallb (fun k => existsb (String.eqb k) fieldnames) item_keys
  then Ok row
  else Raise ValueError.

Fixpoint to_csv_loop (fieldnames : list string) (l : list Word)
  (written : list Row) : result (list Row) :=
  match l with
  | [] => Ok written
  | w :: rest =>
      row <- writerow fieldnames (to_csv_item w) ;;
      to_csv_loop fieldnames rest (written ++ [row])
  end.

(** [to_csv]: the file written, as [csv.DictReader] reads it back. The
    field names are [self.csv_header]; [writer.writeheader] raises
    [TypeError] when it is [None]. *)
Definition to_csv (self : WordList) : result CsvFile :=
  match csv_header self with
  | None => Raise TypeError
  | Some fieldnames =>
      written <- to_csv_loop fieldnames (items self) [] ;;
      Ok (mkCsvFile fieldnames written)
  end.

(** The value of a decimal numeral read from the left, [acc] being the
    value of the digits already read. *)
Fixpoint uint_value (d : Decimal.uint) (acc : Z) : Z :=
  match d with
  | Decimal.Nil => acc
  | Decimal.D0 d => uint_value d (10 * acc)
  | Decimal.D1 d => uint_value d (10 * acc + 1)
  | Decimal.D2 d => uint_value d (10 * acc + 2)
  | Decimal.D3 d => uint_value d (10 * acc + 3)
  | Decimal.D4 d => uint_value d (10 * acc + 4)
  | Decimal.D5 d => uint_value d (10 * acc + 5)
  | Decimal.D6 d => uint_value d (10 * acc + 6)
  | Decimal.D7 d => uint_value d (10 * acc + 7)
  | Decimal.D8 d => uint_value d (10 * acc + 8)
  | Decimal.D9 d => uint_value d (10 * acc + 9)
  end.

(** *** [Win.assign_lines] and [PtWin.assign_lines] *)

(** [sorted(terms, key=lambda t: t.order)]: [sorted] is stable, so a term
    comes before the terms of the same order that follow it in [terms]. *)
Fixpoint insert_by_order (w : Word) (l : list Word) : list Word :=
  match l with
  | [] => [w]
  | x :: rest =>
      if order w <=? order x then w :: l
      else x :: insert_by_order w rest
  end.

Definition sorted_by_order (terms : list Word) : list Word :=
  fold_right insert_by_order [] terms.

(** [w.label == self.label], the label of a window being a [Label] or
    [None]. *)
Definition has_label (label : option Label) (w : Word) : bool :=
  match label with
  | Some l => Label_eqb (group w) l
  | None => false
  end.

(** [Win.assign_lines]: the value assigned to [self.lines]. *)
Definition Win_assign_lines (label : option Label) (terms : list Word)
  : list string :=
  let terms := sorted_by_order terms in
  map word (filter (has_label label) terms).

(** [PtWin.assign_lines]: the value assigned to [self.terms]. *)
Definition PtWin_assign_lines (label : option Label) (terms : list Word)
  : list Word :=
  sorted_by_order (filter (has_label label) terms).

(** *** The reset of a review session *)

(** [for w in terms.items: w.order = -1; w.related = ''] *)
Definition reset_order_related (terms : WordList) : WordList :=
  mkWordList
    (map (fun w => mkWord (index w) (word w) (count w) (group w) (-1) "")
         (items terms))
    (csv_header terms).

(** The start of [curses_main]: in review mode the orders and the related
    strings are reset unless the label under review is the one recorded for
    the data file, [last_review] being [last_reviews.get(datafile, '')]. *)
Definition review_reset (terms : WordList) (review : Label)
  (last_review : string) : WordList :=
  let reset :=
    if negb (Label_eqb review NONE)
    then negb (String.eqb (Label_name review) last_review)
    else false in
  if reset then reset_order_related terms else terms.

(** *** Specification-side notions *)

(** What identifies a term and never changes in a session. *)
Definition identity (w : Word) : Z * string * string :=
  (index w, word w, count w).

Definition by_order (a b : Word) : Prop := order a <= order b.

Definition b2z (b : bool) : Z := if b then 1 else 0.

(** * Properties of the term store *)

(** ** The maximum of the orders *)

Lemma fold_left_max_ge (l : list Z) (x : Z) : x <= fold_left Z.max l x.
Proof.
  revert x; induction l as [|y l IH]; intros x; simpl.
  - lia.
  - specialize (IH (Z.max x y)); lia.
Qed.

Lemma fold_left_max_upper (l : list Z) (x y : Z) :
  In y l -> y <= fold_left Z.max l x.
Proof.
  revert x; induction l as [|z l IH]; intros x Hy; simpl in *.
  - contradiction.
  - destruct Hy as [-> | Hy].
    + pose proof (fold_left_max_ge l (Z.max x y)); lia.
    + now apply IH.
Qed.

Lemma fold_left_max_attained (l : list Z) (x : Z) :
  In (fold_left Z.max l x) (x :: l).
Proof.
  revert x; induction l as [|y l IH]; intros x; simpl.
  - now left.
  - destruct (IH (Z.max x y)) as [H | H].
    + rewrite <- H.
      destruct (Z.max_spec x y) as [[_ E] | [_ E]]; rewrite E.
      * right; left; reflexivity.
      * left; reflexivity.
    + right; right; exact H.
Qed.

Lemma py_max_spec (l : list Z) (m : Z) :
  py_max l = Ok m -> In m l /\ forall y, In y l -> y <= m.
Proof.
  destruct l as [|x l]; simpl; intros H; [discriminate|].
  injection H as <-. split.
  - apply fold_left_max_attained.
  - intros y [-> | Hy].
    + apply fold_left_max_ge.
    + now apply fold_left_max_upper.
Qed.

Lemma py_max_nonempty (x : Z) (l : list Z) : exists m, py_max (x :: l) = Ok m.
Proof. simpl; eauto. Qed.

(** [get_last_classified_order] on a store that has items: the result is at
    least [-1] and at least every order of the store. *)
Lemma get_last_classified_order_spec (self : WordList) (last : Z) :
  get_last_classified_order self = Ok last ->
  -1 <= last /\ forall w, In w (items self) -> order w <= last.
Proof.
  unfold get_last_classified_order.
  destruct (py_max (map order (items self))) as [m|e] eqn:E; simpl;
    [|discriminate].
  intros H; injection H as <-.
  apply py_max_spec in E as [_ Hub].
  assert (Hw : forall w, In w (items self) -> order w <= m)
    by (intros w Hw; apply Hub, in_map, Hw).
  destruct (m <? 0) eqn:Hm.
  - apply Z.ltb_lt in Hm. split; [lia|]. intros w Hw'.
    specialize (Hw w Hw'). lia.
  - apply Z.ltb_ge in Hm. split; [lia|exact Hw].
Qed.

Lemma get_last_classified_order_nonempty (self : WordList) :
  items self <> [] -> exists last, get_last_classified_order self = Ok last.
Proof.
  unfold get_last_classified_order.
  destruct (items self) as [|w ws]; [congruence|]. simpl. eauto.
Qed.

(** When a term is classified, [get_last_classified_word] returns a term
    that holds the maximum order, which is not negative. *)
Lemma get_last_classified_word_classified (self : WordList) (x : Word) :
  In x (items self) -> 0 <= order x ->
  exists w, get_last_classified_word self = Ok (Some w) /\
            In w (items self) /\ 0 <= order w /\
            forall y, In y (items self) -> order y <= order w.
Proof.
  intros Hx Hpos. unfold get_last_classified_word, get_last_classified_order.
  destruct (py_max (map order (items self))) as [m|e] eqn:E.
  - simpl. apply py_max_spec in E as [Hin Hub].
    assert (Hm : 0 <= m) by (specialize (Hub (order x) (in_map order _ _ Hx)); lia).
    replace (m <? 0) with false by (symmetry; apply Z.ltb_ge; lia).
    destruct (find (fun w => order w =? m) (items self)) as [w|] eqn:F.
    + apply find_some in F as [Hw Ho]. apply Z.eqb_eq in Ho.
      exists w. repeat split; auto; try lia.
      intros y Hy. rewrite Ho. apply Hub, in_map, Hy.
    + apply in_map_iff in Hin as [w [Ho Hw]].
      pose proof (find_none _ _ F w Hw) as Hn. simpl in Hn.
      rewrite Ho, Z.eqb_refl in Hn. discriminate.
  - destruct (items self); [contradiction | discriminate].
Qed.

(** C1. [get_last_classified_word] on a store in which no term is
    classified (every order is [-1]) and which has items: the maximum [-1]
    is the order looked for, and the first term of the store is returned,
    not [None]. *)
Theorem get_last_classified_word_none_classified :
  forall (self : WordList) (w : Word) (ws : list Word),
    items self = w :: ws ->
    (forall x, In x (w :: ws) -> order x = -1) ->
    get_last_classified_word self = Ok (Some w).
Proof.
  intros self w ws Hitems Hall.
  unfold get_last_classified_word, get_last_classified_order.
  rewrite Hitems. simpl.
  assert (Hmax : fold_left Z.max (map order ws) (order w) = -1).
  { pose proof (fold_left_max_attained (map order ws) (order w)) as Hin.
    change (order w :: map order ws) with (map order (w :: ws)) in Hin.
    apply in_map_iff in Hin as [y [Hy Hin]].
    rewrite <- Hy. now apply Hall. }
  rewrite Hmax. simpl.
  rewrite (Hall w (or_introl eq_refl)). reflexivity.
Qed.

Lemma get_last_classified_word_none_classified_witness :
  get_last_classified_word
    (mkWordList [mkWord 0 "deep learning" "3" NONE (-1) "";
                 mkWord 0 "neural networks" "5" NONE (-1) ""] None)
  = Ok (Some (mkWord 0 "deep learning" "3" NONE (-1) "")).
Proof.
  apply (get_last_classified_word_none_classified _ _
           [mkWord 0 "neural networks" "5" NONE (-1) ""]).
  - reflexivity.
  - simpl. intros x [<- | [<- | []]]; reflexivity.
Defined.

(** C10. On a store whose item list is empty [get_last_classified_order]
    and [get_last_classified_word] raise (the maximum of an empty
    sequence); on every other store both return. *)
Theorem last_classified_total_iff_nonempty :
  forall self : WordList,
    (items self = [] <-> get_last_classified_order self = Raise ValueError) /\
    (items self = [] <-> get_last_classified_word self = Raise ValueError) /\
    (items self <> [] <-> exists o, get_last_classified_order self = Ok o) /\
    (items self <> [] <-> exists r, get_last_classified_word self = Ok r).
Proof.
  intros self.
  unfold get_last_classified_word, get_last_classified_order.
  destruct (items self) as [|w ws]; simpl.
  - repeat split; try reflexivity; try congruence;
      intros [x Hx]; discriminate.
  - repeat split; try discriminate; eauto.
Qed.

(** ** [mark_word] *)

Lemma mark_word_loop_absent (l : list Word) (s : string) (marker : Label)
  (o : Z) (r : string) :
  ~ In s (map word l) -> mark_word_loop l s marker o r = l.
Proof.
  induction l as [|w l IH]; simpl; intros Hn; [reflexivity|].
  destruct (String.eqb_spec (word w) s) as [E | _].
  - exfalso; apply Hn; now left.
  - f_equal. apply IH. intros H; apply Hn; now right.
Qed.

Lemma mark_word_loop_present (l : list Word) (s : string) (marker : Label)
  (o : Z) (r : string) :
  In s (map word l) ->
  exists before w after,
    l = (before ++ w :: after)%list /\
    word w = s /\ ~ In s (map word before) /\
    mark_word_loop l s marker o r
    = (before ++ marked w marker o r :: after)%list.
Proof.
  induction l as [|w l IH]; simpl; intros Hin; [contradiction|].
  destruct (String.eqb_spec (word w) s) as [E | NE].
  - exists [], w, l. simpl. repeat split; auto.
  - destruct Hin as [E | Hin]; [contradiction|].
    destruct (IH Hin) as (before & x & after & Hl & Hx & Hb & Hm).
    exists (w :: before), x, after. simpl. repeat split.
    + now rewrite Hl.
    + exact Hx.
    + intros [E | H]; [contradiction | now apply Hb].
    + now rewrite Hm.
Qed.

Lemma mark_word_loop_length (l : list Word) (s : string) (marker : Label)
  (o : Z) (r : string) :
  List.length (mark_word_loop l s marker o r) = List.length l.
Proof.
  induction l as [|w l IH]; simpl; [reflexivity|].
  destruct (String.eqb (word w) s); simpl; congruence.
Qed.

Lemma mark_word_loop_words (l : list Word) (s : string) (marker : Label)
  (o : Z) (r : string) :
  map word (mark_word_loop l s marker o r) = map word l.
Proof.
  induction l as [|w l IH]; simpl; [reflexivity|].
  destruct (String.eqb (word w) s); simpl; congruence.
Qed.

(** C3, as stated, fails: for a string that is not in the store [mark_word]
    raises nothing. *)
Lemma mark_word_absent_counterexample :
  ~ (forall (self : WordList) (s : string) (marker : Label) (o : Z)
            (r : string),
        ~ In s (map word (items self)) ->
        exists e, mark_word self s marker o r = Raise e).
Proof.
  intros H.
  destruct (H (mkWordList [mkWord 0 "deep learning" "3" NONE (-1) ""] None)
              "neural networks" KEYWORD 0 "") as [e He].
  - simpl. intros [E | []]. discriminate.
  - discriminate.
Qed.

(** C3, amended. For every store and every string that no term of the
    store has, [mark_word] raises no error and returns the store with every
    term unchanged. *)
Theorem mark_word_absent :
  forall (self : WordList) (s : string) (marker : Label) (o : Z)
         (r : string),
    ~ In s (map word (items self)) ->
    mark_word self s marker o r = Ok self.
Proof.
  intros [l h] s marker o r Hn. unfold mark_word. simpl in *.
  now rewrite mark_word_loop_absent.
Qed.

Lemma mark_word_absent_witness :
  mark_word (mkWordList [mkWord 0 "deep learning" "3" NONE (-1) ""] None)
            "neural networks" KEYWORD 0 ""
  = Ok (mkWordList [mkWord 0 "deep learning" "3" NONE (-1) ""] None).
Proof.
  apply mark_word_absent. simpl. intros [E | []]. discriminate.
Defined.

(** C9. When the string is in the store, [mark_word] rewrites the first
    term that has it, giving it the new [group], [order] and [related] and
    leaving its [index], [word] and [count] as they were; the terms before
    and after it are the same, so no term is added or removed. *)
Theorem mark_word_frame :
  forall (self : WordList) (s : string) (marker : Label) (o : Z)
         (r : string),
    In s (map word (items self)) ->
    exists (before : list Word) (w : Word) (after : list Word),
      items self = (before ++ w :: after)%list /\
      word w = s /\ ~ In s (map word before) /\
      mark_word self s marker o r
      = Ok (mkWordList (before ++ marked w marker o r :: after)
                       (csv_header self)) /\
      index (marked w marker o r) = index w /\
      word (marked w marker o r) = word w /\
      count (marked w marker o r) = count w /\
      group (marked w marker o r) = marker /\
      order (marked w marker o r) = o /\
      related (marked w marker o r) = r.
Proof.
  intros self s marker o r Hin.
  destruct (mark_word_loop_present _ _ marker o r Hin)
    as (before & w & after & Hl & Hw & Hb & Hm).
  exists before, w, after. unfold mark_word. rewrite Hm.
  repeat split; auto.
Qed.

Lemma mark_word_frame_witness :
  exists (before : list Word) (w : Word) (after : list Word),
    [mkWord 0 "deep learning" "3" NONE (-1) "";
     mkWord 0 "neural networks" "5" NONE (-1) ""]
    = (before ++ w :: after)%list /\
    word w = "neural networks" /\
    ~ In "neural networks" (map word before) /\
    mark_word
      (mkWordList [mkWord 0 "deep learning" "3" NONE (-1) "";
                   mkWord 0 "neural networks" "5" NONE (-1) ""] None)
      "neural networks" KEYWORD 0 "deep learning"
    = Ok (mkWordList
            (before ++ marked w KEYWORD 0 "deep learning" :: after) None).
Proof.
  destruct (mark_word_frame
              (mkWordList [mkWord 0 "deep learning" "3" NONE (-1) "";
                           mkWord 0 "neural networks" "5" NONE (-1) ""] None)
              "neural networks" KEYWORD 0 "deep learning")
    as (before & w & after & H1 & H2 & H3 & H4 & _).
  - simpl. right; left; reflexivity.
  - exists before, w, after. repeat split; assumption.
Defined.

(** ** [return_related_items] *)

Lemma return_related_items_loop_skips (l : list Word) (key : string)
  (label : Label) (containing not_containing : list string) :
  return_related_items_loop l key label containing not_containing
  = (containing, not_containing).
Proof.
  induction l as [|w l IH]; simpl; [reflexivity|].
  unfold order_is_not_None. rewrite orb_true_r. exact IH.
Qed.

(** C4. The test [w.order is not None] holds for every term, so the loop of
    [return_related_items] skips every term: both lists are empty whatever
    the store, the key and the label are. *)
Theorem return_related_items_skips_every_term :
  forall (self : WordList) (key : string) (label : Label),
    return_related_items self key label = Ok ([], []).
Proof.
  intros self key label. unfold return_related_items.
  now rewrite return_related_items_loop_skips.
Qed.

(** ** [_word_contains]: whole-token matching *)

Section Tokens.

Local Open Scope string_scope.

Lemma append_empty_r (s : string) : s ++ "" = s.
Proof. induction s as [|c s IH]; simpl; congruence. Qed.

Lemma append_assoc3 (a b c : string) : (a ++ b) ++ c = a ++ (b ++ c).
Proof. induction a as [|x a IH]; simpl; congruence. Qed.

Lemma append_eq_empty (a b : string) : a ++ b = "" -> a = "" /\ b = "".
Proof. destruct a; simpl; [auto | discriminate]. Qed.

Lemma no_space_append (a b : string) :
  no_space (a ++ b) = no_space a && no_space b.
Proof.
  induction a as [|c a IH]; simpl; [reflexivity|].
  now rewrite IH, andb_assoc.
Qed.

Lemma ends_cons (c : ascii) (s : string) :
  ends_with_space_or_empty (String c s)
  = match s with
    | EmptyString => isspace c
    | _ => ends_with_space_or_empty s
    end.
Proof. destruct s; reflexivity. Qed.

(** After a whitespace character the left boundary is that of the rest. *)
Lemma ends_after_space (c : ascii) (s : string) :
  isspace c = true ->
  ends_with_space_or_empty (String c s) = ends_with_space_or_empty s.
Proof. intros Hc. rewrite ends_cons. destruct s; simpl; auto. Qed.

Lemma ends_append_cons (a : string) (c : ascii) (z : string) :
  ends_with_space_or_empty (a ++ String c z)
  = ends_with_space_or_empty (String c z).
Proof.
  induction a as [|x a IH]; [reflexivity|].
  change (String x a ++ String c z) with (String x (a ++ String c z)).
  rewrite ends_cons.
  destruct (a ++ String c z) eqn:E; [|exact IH].
  apply append_eq_empty in E as [_ E]. discriminate.
Qed.

Lemma no_space_ends (a : string) :
  no_space a = true -> ends_with_space_or_empty a = true -> a = "".
Proof.
  induction a as [|c a IH]; [reflexivity|].
  intros Hn He. simpl in Hn. apply andb_prop in Hn as [Hc Ha].
  rewrite ends_cons in He. destruct a as [|d a].
  - rewrite He in Hc. discriminate.
  - specialize (IH Ha He). discriminate.
Qed.

Lemma no_space_starts (a : string) :
  no_space a = true -> starts_with_space_or_empty a = true -> a = "".
Proof.
  destruct a as [|c a]; [reflexivity|]. simpl.
  intros Hn Hs. rewrite Hs in Hn. discriminate.
Qed.

(** Where a character of one decomposition falls in another one. *)
Lemma append_cons_eq_append (a : string) (c : ascii) (b x y : string) :
  a ++ String c b = x ++ y ->
  (exists z, a = x ++ z /\ y = z ++ String c b) \/
  (exists z, x = a ++ String c z /\ b = z ++ y).
Proof.
  revert x; induction a as [|e a IH]; intros x H.
  - destruct x as [|d x]; simpl in H.
    + left. exists "". auto.
    + injection H as <- ->. right. exists x. auto.
  - destruct x as [|d x]; simpl in H.
    + left. exists (String e a). auto.
    + injection H as <- H. destruct (IH x H) as [[z [-> ->]] | [z [-> ->]]].
      * left. exists z. auto.
      * right. exists z. auto.
Qed.

(** A string without whitespace has itself as its only token. *)
Lemma is_token_word (k t : string) :
  no_space t = true -> t <> "" -> (is_token k t <-> k = t).
Proof.
  intros Ht Hne. split.
  - intros (_ & _ & before & after & E & Hb & Ha).
    rewrite E, !no_space_append in Ht.
    apply andb_prop in Ht as [Hnb Ht]. apply andb_prop in Ht as [_ Hna].
    rewrite (no_space_ends _ Hnb Hb), (no_space_starts _ Hna Ha) in E.
    simpl in E. now rewrite append_empty_r in E.
  - intros ->. repeat split; auto.
    exists "", "". simpl. now rewrite append_empty_r.
Qed.

Lemma is_token_empty (k : string) : ~ is_token k "".
Proof.
  intros (Hk & _ & before & after & E & _).
  symmetry in E. apply append_eq_empty in E as [_ E].
  apply append_eq_empty in E as [E _]. contradiction.
Qed.

(** A leading whitespace character belongs to no token. *)
Lemma is_token_skip_space (k : string) (c : ascii) (s : string) :
  isspace c = true -> (is_token k (String c s) <-> is_token k s).
Proof.
  intros Hc. split.
  - intros (Hk & Hn & before & after & E & Hb & Ha).
    repeat split; auto.
    destruct before as [|d before]; simpl in E.
    + destruct k as [|d k]; [contradiction|].
      simpl in E, Hn. injection E as <- _.
      rewrite Hc in Hn. discriminate.
    + injection E as <- E. exists before, after.
      rewrite ends_after_space in Hb by exact Hc. auto.
  - intros (Hk & Hn & before & after & E & Hb & Ha).
    repeat split; auto.
    exists (String c before), after.
    rewrite ends_after_space by exact Hc.
    split; [simpl; now rewrite E | auto].
Qed.

(** A word followed by whitespace: the tokens are the word and the tokens
    of what follows. *)
Lemma is_token_after_word (k tok : string) (c : ascii) (s : string) :
  no_space tok = true -> tok <> "" -> isspace c = true ->
  (is_token k (tok ++ String c s) <-> k = tok \/ is_token k s).
Proof.
  intros Ht Hne Hc. split.
  - intros (Hk & Hn & before & after & E & Hb & Ha).
    destruct (append_cons_eq_append _ _ _ _ _ E)
      as [[z [Et Ey]] | [z [Ex Es]]].
    + left.
      assert (Hnb : no_space before = true).
      { rewrite Et, no_space_append in Ht.
        now apply andb_prop in Ht as [Ht _]. }
      rewrite (no_space_ends _ Hnb Hb) in Et. simpl in Et. subst z.
      symmetry in Ey.
      destruct (append_cons_eq_append _ _ _ _ _ Ey)
        as [[z [Et Ea]] | [z [Ek _]]].
      * destruct z as [|d z].
        { now rewrite append_empty_r in Et. }
        { exfalso. rewrite Ea in Ha. simpl in Ha.
          rewrite Et, no_space_append in Ht.
          apply andb_prop in Ht as [_ Ht]. simpl in Ht.
          rewrite Ha in Ht. discriminate. }
      * exfalso. rewrite Ek, no_space_append in Hn.
        apply andb_prop in Hn as [_ Hn]. simpl in Hn.
        rewrite Hc in Hn. discriminate.
    + right. repeat split; auto. exists z, after.
      rewrite Ex, ends_append_cons, ends_after_space in Hb by exact Hc.
      auto.
  - intros [-> | (Hk & Hn & before & after & E & Hb & Ha)].
    + repeat split; auto. exists "", (String c s). simpl. auto.
    + repeat split; auto. exists (tok ++ String c before), after.
      rewrite ends_append_cons, ends_after_space by exact Hc.
      split; [rewrite E, append_assoc3; reflexivity | auto].
Qed.

(** [split_from tok s] lists the tokens of [tok ++ s] when [tok] is a run
    without whitespace. *)
Lemma split_from_tokens (k s : string) :
  forall tok : string,
    no_space tok = true ->
    (In k (split_from tok s) <-> is_token k (tok ++ s)).
Proof.
  induction s as [|c s IH]; intros tok Ht.
  - rewrite append_empty_r. simpl. destruct tok as [|d tok].
    + split; [contradiction | intros H; now apply is_token_empty in H].
    + rewrite is_token_word by (auto; discriminate).
      simpl. split; [intros [H | []]; auto | intros H; left; auto].
  - simpl split_from. destruct (isspace c) eqn:Hc.
    + destruct tok as [|d tok].
      * rewrite (IH "" eq_refl). simpl.
        symmetry. now apply is_token_skip_space.
      * rewrite is_token_after_word by (auto; discriminate).
        simpl In. rewrite (IH "" eq_refl). simpl.
        split; (intros [H | H]; [left | right]; auto).
    + rewrite IH.
      * rewrite append_assoc3. simpl. reflexivity.
      * rewrite no_space_append. simpl. now rewrite Ht, Hc.
Qed.

End Tokens.

(** C8. [_word_contains string substring] holds exactly when [substring]
    is one of the whitespace-separated tokens of [string]; "pipeline" is a
    token of "data science pipeline" and "pipe" is not. *)
Theorem _word_contains_whole_token :
  (forall string' substring : string,
      _word_contains string' substring = true <->
      is_token substring string') /\
  _word_contains "data science pipeline" "pipeline" = true /\
  _word_contains "data science pipeline" "pipe" = false.
Proof.
  split; [|split; reflexivity].
  intros s k. unfold _word_contains, split.
  rewrite existsb_exists, <- (split_from_tokens k s "" eq_refl).
  split.
  - intros [x [Hx E]]. apply String.eqb_eq in E. now subst.
  - intros H. exists k. split; [exact H | apply String.eqb_refl].
Qed.

(** * Properties of the classification session *)

(** ** What the actions write to the store *)

Lemma classify_store (label : Label) (terms : WordList) (review : Label)
  (t : Word) (key : string) (cnt : Z) :
  classify label terms review t key cnt
  = (last <- get_last_classified_order terms ;;
     Ok (mkWordList
           (mark_word_loop (items terms) (word t) label (last + 1) key)
           (csv_header terms),
         (plain_list [], (if cnt <=? 0 then 0 + 1 else cnt) - 1,
          if cnt <=? 0 then word t else key))).
Proof.
  unfold classify, classify_term, mark_word.
  destruct (get_last_classified_order terms) as [last|e]; simpl;
    [|reflexivity].
  now rewrite return_related_items_loop_skips.
Qed.

Lemma classify_store_ok (label : Label) (terms terms' : WordList)
  (review : Label) (t : Word) (key : string) (cnt : Z)
  (out : Queue * Z * string) :
  classify label terms review t key cnt = Ok (terms', out) ->
  exists last,
    get_last_classified_order terms = Ok last /\
    items terms'
    = mark_word_loop (items terms) (word t) label (last + 1) key.
Proof.
  rewrite classify_store.
  destruct (get_last_classified_order terms) as [last|e]; simpl;
    [|discriminate].
  intros H. injection H as <- _. exists last. auto.
Qed.

Lemma do_postpone_store_ok (terms terms' : WordList) (t : Word)
  (review : Label) (key : string) (cnt : Z) (out : Word * Z * Queue) :
  do_postpone terms t review key cnt = Ok (terms', out) ->
  exists last,
    get_last_classified_order terms = Ok last /\
    items terms'
    = mark_word_loop (items terms) (word t) POSTPONED (last + 1) key.
Proof.
  unfold do_postpone, classify_term, mark_word.
  destruct (get_last_classified_order terms) as [last|e]; simpl;
    [|discriminate].
  rewrite return_related_items_loop_skips.
  destruct (0 <? cnt - 1); simpl; intros H; injection H as <- _;
    exists last; auto.
Qed.

Lemma undo_store_ok (terms terms' : WordList) (queue : Queue)
  (review : Label) (key : string) (cnt : Z) (out : Queue * Z * string) :
  undo terms queue review key cnt = Ok (terms', out) ->
  terms' = terms \/
  exists last_word,
    items terms'
    = mark_word_loop (items terms) (word last_word) review (-1) "".
Proof.
  unfold undo, undo_with, get_last_classified_term, classify_term,
    mark_word.
  destruct (get_last_classified_word terms) as [[lw|]|e]; simpl;
    [| |discriminate].
  - rewrite return_related_items_loop_skips.
    destruct (String.eqb (related lw) key); [destruct queue|]; simpl;
      intros H; try discriminate;
      injection H as <- _; right; exists lw; reflexivity.
  - intros H. injection H as <- _. now left.
Qed.

(** ** Orders stay pairwise distinct *)

Lemma nonneg_orders_app (a b : list Word) :
  filter (fun o => 0 <=? o) (map order (a ++ b))
  = (filter (fun o => 0 <=? o) (map order a)
     ++ filter (fun o => 0 <=? o) (map order b))%list.
Proof. now rewrite map_app, filter_app. Qed.

Lemma nonneg_orders_In (l : list Word) (o : Z) :
  In o (filter (fun o => 0 <=? o) (map order l)) ->
  exists w, In w l /\ order w = o.
Proof.
  intros H. apply filter_In in H as [H _].
  apply in_map_iff in H as [w [E Hw]]. eauto.
Qed.

(** Writing an order that is negative, or above every order of the store,
    keeps the non-negative orders pairwise distinct. *)
Lemma mark_word_loop_unique_orders (l : list Word) (s : string)
  (marker : Label) (o : Z) (r : string) :
  unique_orders l ->
  o < 0 \/ (forall w, In w l -> order w < o) ->
  unique_orders (mark_word_loop l s marker o r).
Proof.
  intros Hu Ho.
  destruct (in_dec string_dec s (map word l)) as [Hin | Hn].
  - destruct (mark_word_loop_present l s marker o r Hin)
      as (before & w & after & Hl & _ & _ & ->).
    unfold unique_orders in *. rewrite Hl in Hu.
    rewrite nonneg_orders_app in *. simpl in *.
    assert (Hrest : NoDup (filter (fun o => 0 <=? o) (map order before)
                           ++ filter (fun o => 0 <=? o) (map order after))).
    { destruct (0 <=? order w); [|exact Hu].
      now apply NoDup_remove_1 in Hu. }
    destruct (0 <=? o) eqn:Hpos; [|exact Hrest].
    apply Z.leb_le in Hpos.
    apply (NoDup_Add (Add_app o _ _)). split; [exact Hrest|].
    intros Hin'. destruct Ho as [Ho | Ho]; [lia|].
    apply in_app_or in Hin' as [Hin' | Hin'];
      apply nonneg_orders_In in Hin' as [x [Hx Ex]];
      assert (Hxl : In x l)
        by (rewrite Hl; apply in_or_app; simpl; auto);
      specialize (Ho x Hxl); lia.
  - now rewrite mark_word_loop_absent.
Qed.

Lemma step_unique_orders (review : Label) (s s' : Session) (a : Action) :
  step review s a = Ok s' ->
  unique_orders (items (terms s)) -> unique_orders (items (terms s')).
Proof.
  intros Hstep Hu. destruct a as [label t | t |]; simpl in Hstep.
  - unfold do_classify in Hstep.
    destruct (classify label (terms s) review t _ (related_items_count s))
      as [[terms' [[q c] k]]|e] eqn:E; simpl in Hstep; [|discriminate].
    injection Hstep as <-. simpl.
    apply classify_store_ok in E as (last & Hlast & ->).
    apply mark_word_loop_unique_orders; [exact Hu|]. right.
    intros w Hw.
    apply get_last_classified_order_spec in Hlast as [_ Hub].
    specialize (Hub w Hw). lia.
  - destruct (do_postpone (terms s) t review _ (related_items_count s))
      as [[terms' [[w' c] q]]|e] eqn:E; simpl in Hstep; [|discriminate].
    injection Hstep as <-. simpl.
    apply do_postpone_store_ok in E as (last & Hlast & ->).
    apply mark_word_loop_unique_orders; [exact Hu|]. right.
    intros w Hw.
    apply get_last_classified_order_spec in Hlast as [_ Hub].
    specialize (Hub w Hw). lia.
  - destruct (undo (terms s) (to_classify s) review _ (related_items_count s))
      as [[terms' [[q c] k]]|e] eqn:E; simpl in Hstep; [|discriminate].
    injection Hstep as <-. simpl.
    apply undo_store_ok in E as [-> | [lw ->]]; [exact Hu|].
    apply mark_word_loop_unique_orders; [exact Hu|]. left. lia.
Qed.

Lemma run_unique_orders (review : Label) (actions : list Action) :
  forall s s' : Session,
    run review s actions = Ok s' ->
    unique_orders (items (terms s)) -> unique_orders (items (terms s')).
Proof.
  induction actions as [|a actions IH]; simpl; intros s s' Hrun Hu.
  - injection Hrun as <-. exact Hu.
  - destruct (step review s a) as [s1|e] eqn:E; simpl in Hrun;
      [|discriminate].
    apply (IH s1 s' Hrun). exact (step_unique_orders _ _ _ _ E Hu).
Qed.

(** The term that [mark_word] writes is the first one found by its
    string. *)
Lemma mark_word_loop_find (l : list Word) (s : string) (marker : Label)
  (o : Z) (r : string) :
  In s (map word l) ->
  exists w,
    In w l /\ word w = s /\
    find (fun x => String.eqb (word x) s) (mark_word_loop l s marker o r)
    = Some (marked w marker o r).
Proof.
  induction l as [|w l IH]; simpl; intros Hin; [contradiction|].
  destruct (String.eqb_spec (word w) s) as [E | NE].
  - subst s. exists w. simpl. rewrite String.eqb_refl. auto.
  - destruct Hin as [E | Hin]; [contradiction|].
    destruct (IH Hin) as (x & Hx & Ex & Hf). exists x. simpl.
    destruct (String.eqb_spec (word w) s); [contradiction|]. auto.
Qed.

(** ** The anchor recorded by [classify] *)

(** C5, as stated, fails: with no group active the store does not record
    the string of the classified term as its [related]. *)
Lemma classify_anchor_counterexample :
  ~ (forall (label : Label) (terms : WordList) (review : Label) (t : Word)
            (key : string) (cnt : Z) (terms' : WordList)
            (out : Queue * Z * string) (w' : Word),
        cnt <= 0 ->
        classify label terms review t key cnt = Ok (terms', out) ->
        find (fun w => String.eqb (word w) (word t)) (items terms')
        = Some w' ->
        related w' = word t).
Proof.
  intros H.
  pose (t := mkWord 0 "neural networks" "5" NONE (-1) "").
  specialize (H KEYWORD (mkWordList [t] None) NONE t "" 0
                (mkWordList [mkWord 0 "neural networks" "5" KEYWORD 0 ""]
                            None)
                (plain_list [], 0, "neural networks")
                (mkWord 0 "neural networks" "5" KEYWORD 0 "")).
  simpl in H. specialize (H ltac:(lia) eq_refl eq_refl). discriminate.
Qed.

(** C5, amended. For a classify action performed while no group is active
    ([related_items_count <= 0]) on a term of the store, the store is
    written before the anchor changes: the term's [related] is the
    [sort_word_key] the action was called with, and the [sort_word_key]
    returned is the string of the term. *)
Theorem classify_records_anchor_in_force :
  forall (label : Label) (terms : WordList) (review : Label) (t : Word)
         (key : string) (cnt : Z),
    In (word t) (map word (items terms)) ->
    cnt <= 0 ->
    exists (terms' : WordList) (queue : Queue) (cnt' : Z) (w' : Word),
      classify label terms review t key cnt
      = Ok (terms', (queue, cnt', word t)) /\
      find (fun w => String.eqb (word w) (word t)) (items terms') = Some w' /\
      word w' = word t /\ group w' = label /\ related w' = key.
Proof.
  intros label terms review t key cnt Hin Hcnt.
  rewrite classify_store.
  destruct (get_last_classified_order_nonempty terms) as [last Hlast].
  { intros E. rewrite E in Hin. contradiction. }
  rewrite Hlast. simpl.
  replace (cnt <=? 0) with true by (symmetry; apply Z.leb_le; exact Hcnt).
  destruct (mark_word_loop_find _ _ label (last + 1) key Hin)
    as (w & _ & Ew & Hf).
  do 4 eexists. split; [reflexivity|]. simpl. rewrite Hf.
  repeat split. exact Ew.
Qed.

Lemma classify_records_anchor_in_force_witness :
  exists (terms' : WordList) (queue : Queue) (cnt' : Z) (w' : Word),
    classify KEYWORD
      (mkWordList [mkWord 0 "deep learning" "3" NONE (-1) "";
                   mkWord 0 "neural networks" "5" NONE (-1) ""] None)
      NONE (mkWord 0 "neural networks" "5" NONE (-1) "") "" 0
    = Ok (terms', (queue, cnt', "neural networks")) /\
    find (fun w => String.eqb (word w) "neural networks") (items terms')
    = Some w' /\
    word w' = "neural networks" /\ group w' = KEYWORD /\ related w' = "".
Proof.
  apply (classify_records_anchor_in_force KEYWORD
           (mkWordList [mkWord 0 "deep learning" "3" NONE (-1) "";
                        mkWord 0 "neural networks" "5" NONE (-1) ""] None)
           NONE (mkWord 0 "neural networks" "5" NONE (-1) "") "" 0).
  - simpl. right; left; reflexivity.
  - lia.
Defined.

(** ** Fresh orders *)

(** C6, as stated, fails: an order given once is given again after an undo.
    In a session with one term left in the active group, "deep learning" is
    classified and gets the order [0]; the undo takes it back to [-1]; the
    term classified next gets the order [0], which is not above the order
    assigned before. *)
Lemma orders_reused_after_undo_counterexample :
  exists (s1 s2 s3 : Session) (a b : Word),
    step NONE
      (mkSession
         (mkWordList [mkWord 0 "deep learning" "3" NONE (-1) "";
                      mkWord 0 "neural networks" "5" NONE (-1) ""] None)
         (term_list ["deep learning"; "neural networks"]) "learning" 1)
      (Classify KEYWORD (mkWord 0 "deep learning" "3" NONE (-1) ""))
    = Ok s1 /\
    find (fun w => String.eqb (word w) "deep learning") (items (terms s1))
    = Some a /\
    step NONE s1 Undo = Ok s2 /\
    step NONE s2
      (Classify NOISE (mkWord 0 "neural networks" "5" NONE (-1) ""))
    = Ok s3 /\
    find (fun w => String.eqb (word w) "neural networks") (items (terms s3))
    = Some b /\
    order a = 0 /\ order b = 0 /\ ~ order a < order b.
Proof.
  do 5 eexists. repeat split; try reflexivity. simpl. lia.
Qed.

(** C6, amended. A classify or a postpone action on a term of the store
    returns and gives the term an order that is not negative and is above
    the order of every term of the store as it was before the action (an
    order that an undo has released can be given again); and along every
    sequence of classify, postpone and undo actions that returns, from a
    store whose non-negative orders are pairwise distinct, the non-negative
    orders of the store stay pairwise distinct. *)
Theorem orders_fresh_and_unique :
  (forall (label : Label) (terms : WordList) (review : Label) (t : Word)
          (key : string) (cnt : Z),
      In (word t) (map word (items terms)) ->
      exists (terms' : WordList) (out : Queue * Z * string)
             (w' : Word),
        classify label terms review t key cnt = Ok (terms', out) /\
        find (fun w => String.eqb (word w) (word t)) (items terms')
        = Some w' /\
        0 <= order w' /\
        forall w, In w (items terms) -> order w < order w') /\
  (forall (terms : WordList) (t : Word) (review : Label) (key : string)
          (cnt : Z),
      In (word t) (map word (items terms)) ->
      exists (terms' : WordList) (out : Word * Z * Queue) (w' : Word),
        do_postpone terms t review key cnt = Ok (terms', out) /\
        find (fun w => String.eqb (word w) (word t)) (items terms')
        = Some w' /\
        0 <= order w' /\
        forall w, In w (items terms) -> order w < order w') /\
  (forall (review : Label) (s s' : Session) (actions : list Action),
      unique_orders (items (terms s)) ->
      run review s actions = Ok s' ->
      unique_orders (items (terms s'))).
Proof.
  split; [|split].
  - intros label terms review t key cnt Hin.
    rewrite classify_store.
    destruct (get_last_classified_order_nonempty terms) as [last Hlast].
    { intros E. rewrite E in Hin. contradiction. }
    rewrite Hlast. simpl.
    destruct (mark_word_loop_find _ _ label (last + 1) key Hin)
      as (w & _ & _ & Hf).
    apply get_last_classified_order_spec in Hlast as [Hlow Hub].
    do 3 eexists. split; [reflexivity|]. simpl. rewrite Hf.
    split; [reflexivity|]. simpl. split; [lia|].
    intros x Hx. specialize (Hub x Hx). lia.
  - intros terms t review key cnt Hin.
    unfold do_postpone, classify_term, mark_word.
    destruct (get_last_classified_order_nonempty terms) as [last Hlast].
    { intros E. rewrite E in Hin. contradiction. }
    rewrite Hlast. simpl.
    rewrite return_related_items_loop_skips.
    destruct (mark_word_loop_find _ _ POSTPONED (last + 1) key Hin)
      as (w & _ & _ & Hf).
    apply get_last_classified_order_spec in Hlast as [Hlow Hub].
    destruct (0 <? cnt - 1); simpl;
      (do 3 eexists; split; [reflexivity|]; simpl; rewrite Hf;
       split; [reflexivity|]; simpl; split; [lia|];
       intros x Hx; specialize (Hub x Hx); lia).
  - intros review s s' actions Hu Hrun.
    exact (run_unique_orders review actions s s' Hrun Hu).
Qed.

Lemma orders_fresh_and_unique_witness :
  (exists (terms' : WordList) (out : Queue * Z * string) (w' : Word),
      classify RELEVANT
        (mkWordList [mkWord 0 "deep learning" "3" KEYWORD 0 "";
                     mkWord 0 "neural networks" "5" NONE (-1) ""] None)
        NONE (mkWord 0 "neural networks" "5" NONE (-1) "") "" 0
      = Ok (terms', out) /\
      find (fun w => String.eqb (word w) "neural networks") (items terms')
      = Some w' /\
      0 <= order w' /\
      forall w,
        In w [mkWord 0 "deep learning" "3" KEYWORD 0 "";
              mkWord 0 "neural networks" "5" NONE (-1) ""] ->
        order w < order w') /\
  unique_orders
    [mkWord 0 "deep learning" "3" KEYWORD 0 "";
     mkWord 0 "neural networks" "5" POSTPONED 1 ""].
Proof.
  split.
  - apply (proj1 orders_fresh_and_unique RELEVANT
             (mkWordList [mkWord 0 "deep learning" "3" KEYWORD 0 "";
                          mkWord 0 "neural networks" "5" NONE (-1) ""] None)
             NONE (mkWord 0 "neural networks" "5" NONE (-1) "") "" 0).
    simpl. right; left; reflexivity.
  - apply (proj2 (proj2 orders_fresh_and_unique) NONE
             (mkSession
                (mkWordList [mkWord 0 "deep learning" "3" NONE (-1) "";
                             mkWord 0 "neural networks" "5" NONE (-1) ""]
                            None)
                (term_list ["deep learning"; "neural networks"])
                "learning" 1)
             (mkSession
                (mkWordList
                   [mkWord 0 "deep learning" "3" KEYWORD 0 "";
                    mkWord 0 "neural networks" "5" POSTPONED 1 ""] None)
                (term_list []) "" (-1))
             [Classify KEYWORD (mkWord 0 "deep learning" "3" NONE (-1) "");
              Undo;
              Classify KEYWORD (mkWord 0 "deep learning" "3" NONE (-1) "");
              Postpone (mkWord 0 "neural networks" "5" NONE (-1) "")]).
    + unfold unique_orders. simpl. constructor.
    + reflexivity.
Defined.

(** ** [undo] on a store in which nothing is classified *)




(** * Loading the store *)

Lemma Label_members_all (l : Label) : In l Label_members.
Proof. destruct l; simpl; auto 10. Qed.

Lemma get_from_name_Ok (g : string) (l : Label) :
  get_from_name g = Ok l -> Label_name l = g.
Proof.
  unfold get_from_name.
  destruct (find _ Label_members) as [x|] eqn:F; [|discriminate].
  intros H; injection H as <-.
  apply find_some in F as [_ F]. now apply String.eqb_eq.
Qed.

Lemma get_from_name_Raise (g : string) (e : exn) :
  get_from_name g = Raise e -> forall l, Label_name l <> g.
Proof.
  unfold get_from_name.
  destruct (find _ Label_members) as [x|] eqn:F; [discriminate|].
  intros _ l E.
  pose proof (find_none _ _ F l (Label_members_all l)) as Hn. simpl in Hn.
  rewrite E, String.eqb_refl in Hn. discriminate.
Qed.

Lemma get_from_key_Ok (g : string) (l : Label) :
  get_from_key g = Ok l -> Label_key l = g.
Proof.
  unfold get_from_key.
  destruct (find _ Label_members) as [x|] eqn:F; [|discriminate].
  intros H; injection H as <-.
  apply find_some in F as [_ F]. now apply String.eqb_eq.
Qed.

Lemma get_from_key_Raise (g : string) (e : exn) :
  get_from_key g = Raise e -> forall l, Label_key l <> g.
Proof.
  unfold get_from_key.
  destruct (find _ Label_members) as [x|] eqn:F; [discriminate|].
  intros _ l E.
  pose proof (find_none _ _ F l (Label_members_all l)) as Hn. simpl in Hn.
  rewrite E, String.eqb_refl in Hn. discriminate.
Qed.

Lemma int_exn (o : string) (e : exn) : int o = Raise e -> e = ValueError.
Proof.
  unfold int.
  destruct (match int_skip_space o with
            | String "+" s' => int_literal s'
            | String "-" s' => option_map Z.opp (int_literal s')
            | s' => int_literal s'
            end); [discriminate|].
  intros H. now injection H as <-.
Qed.

(** The two outcomes of reading the [group] field of a row. *)
Lemma read_group_cases (g : string) :
  (exists l, try_except (get_from_name g) (get_from_key g) = Ok l /\
             (Label_name l = g \/ Label_key l = g)) \/
  (try_except (get_from_name g) (get_from_key g) = Raise ValueError /\
   ~ label_recognized g).
Proof.
  destruct (get_from_name g) as [l|e] eqn:En.
  - left. exists l. split; [reflexivity|]. left.
    now apply get_from_name_Ok.
  - assert (e = ValueError) as ->.
    { unfold get_from_name in En.
      destruct (find _ Label_members); [discriminate|].
      now injection En as <-. }
    cbn [try_except].
    destruct (get_from_key g) as [l|e] eqn:Ek.
    + left. exists l. split; [reflexivity|]. right.
      now apply get_from_key_Ok.
    + assert (e = ValueError) as ->.
      { unfold get_from_key in Ek.
        destruct (find _ Label_members); [discriminate|].
        now injection Ek as <-. }
      right. split; [reflexivity|]. intros [l [E | E]].
      * exact (get_from_name_Raise _ _ En l E).
      * exact (get_from_key_Raise _ _ Ek l E).
Qed.

(** The two outcomes of reading the [order] field of a row. *)
Lemma read_order_cases (o : string) :
  (exists z, (if String.eqb o "" then Ok (-1) else int o) = Ok z /\
             (o = "" /\ z = -1 \/ o <> "" /\ int o = Ok z)) \/
  ((if String.eqb o "" then Ok (-1) else int o) = Raise ValueError /\
   ~ order_readable o).
Proof.
  destruct (String.eqb_spec o "") as [E | NE].
  - left. exists (-1). auto.
  - destruct (int o) as [z|e] eqn:Ei.
    + left. exists z. auto.
    + rewrite (int_exn _ _ Ei) in *. right. split; [reflexivity|].
      intros [E | [z E]]; [contradiction | congruence].
Qed.

Lemma from_csv_item_Ok (row : Row) (w : Word) :
  from_csv_item row = Ok w -> built_from row w.
Proof.
  unfold from_csv_item, built_from.
  destruct (read_order_cases (row_order row))
    as [(z & -> & Hz) | [-> _]]; cbn [bind]; [|discriminate].
  destruct (read_group_cases (row_group row))
    as [(l & -> & Hl) | [-> _]]; cbn [bind]; [|discriminate].
  intros H. injection H as <-. cbn [index word count group order related].
  repeat split; auto.
Qed.

(** [ValueError] is the only exception of the loop body of [from_csv]. *)
Lemma from_csv_item_exn (row : Row) (e : exn) :
  from_csv_item row = Raise e -> e = ValueError.
Proof.
  unfold from_csv_item.
  destruct (read_order_cases (row_order row))
    as [(z & -> & _) | [-> _]]; cbn [bind];
    [|intros H; now injection H as <-].
  destruct (read_group_cases (row_group row))
    as [(l & -> & _) | [-> _]]; cbn [bind];
    [discriminate | intros H; now injection H as <-].
Qed.

Lemma from_csv_item_Raise (row : Row) :
  from_csv_item row = Raise ValueError <->
  ~ label_recognized (row_group row) \/ ~ order_readable (row_order row).
Proof.
  split.
  - unfold from_csv_item.
    destruct (read_order_cases (row_order row))
      as [(z & -> & Hz) | [-> Ho]]; cbn [bind]; [|now right].
    destruct (read_group_cases (row_group row))
      as [(l & -> & Hl) | [-> Hg]]; cbn [bind]; [discriminate | now left].
  - intros Hbad.
    destruct (from_csv_item row) as [w|e] eqn:E.
    + exfalso. apply from_csv_item_Ok in E.
      destruct E as (_ & _ & _ & Hg & Ho & _).
      destruct Hbad as [Hbad | Hbad]; apply Hbad.
      * exists (group w). exact Hg.
      * destruct Ho as [[Ho _] | [_ Ho]]; [now left | right; eauto].
    + now rewrite (from_csv_item_exn _ _ E).
Qed.

Lemma from_csv_loop_Ok (l : list Row) :
  forall acc ws : list Word,
    from_csv_loop l acc = Ok ws ->
    exists built : list Word,
      ws = (acc ++ built)%list /\ Forall2 built_from l built.
Proof.
  induction l as [|row l IH]; simpl; intros acc ws H.
  - injection H as <-. exists []. now rewrite app_nil_r.
  - destruct (from_csv_item row) as [w|e] eqn:E; simpl in H; [|discriminate].
    destruct (IH _ _ H) as (built & -> & HF).
    exists (w :: built). split.
    + now rewrite <- app_assoc.
    + constructor; [now apply from_csv_item_Ok | exact HF].
Qed.

Lemma from_csv_loop_Raise (l : list Row) :
  forall acc : list Word,
    from_csv_loop l acc = Raise ValueError <->
    exists row, In row l /\ from_csv_item row = Raise ValueError.
Proof.
  induction l as [|row l IH]; simpl; intros acc.
  - split; [discriminate | intros [row [[] _]]].
  - destruct (from_csv_item row) as [w|e] eqn:E; simpl.
    + rewrite IH. split.
      * intros [r [Hr Er]]. exists r. auto.
      * intros [r [[<- | Hr] Er]]; [congruence | exists r; auto].
    + assert (e = ValueError) as -> by exact (from_csv_item_exn _ _ E).
      split; [intros _; exists row; auto | reflexivity].
Qed.

(** [ValueError] is the only exception of the loop of [from_csv]. *)
Lemma from_csv_loop_exn (l : list Row) :
  forall (acc : list Word) (e : exn),
    from_csv_loop l acc = Raise e -> e = ValueError.
Proof.
  induction l as [|row l IH]; simpl; intros acc e H; [discriminate|].
  destruct (from_csv_item row) as [w|e'] eqn:E; simpl in H.
  - exact (IH _ _ H).
  - injection H as <-. exact (from_csv_item_exn _ _ E).
Qed.

(** [int] does not skip the separators [\x1c]..[\x1f], which [str.split]
    takes for whitespace. *)
Example int_separator_not_skipped :
  int (String (ascii_of_nat 28) "12") = Raise ValueError /\
  int (String (ascii_of_nat 9) "12 ") = Ok 12 /\
  split (String (ascii_of_nat 28) "12") = ["12"].
Proof. repeat split. Qed.

(** A file with distinct term strings and recognized labels is refused
    when an [order] field is not an integer. *)
Example from_csv_order_not_integer :
  from_csv (mkWordList [] None)
    (mkCsvFile ["keyword"; "count"; "group"; "order"]
       [mkRow "deep learning" "3" "keyword" "first" None])
  = Raise ValueError.
Proof. reflexivity. Qed.

(** C7, as stated, fails: a file with the same term string in two rows and
    recognized labels is loaded, so failure is not equivalent to an
    unrecognized label or a duplicated string. *)
Lemma from_csv_counterexample :
  ~ (forall (self : WordList) (infile : CsvFile),
        (exists e, from_csv self infile = Raise e) <->
        (exists row, In row (rows infile) /\
                     ~ label_recognized (row_group row)) \/
        ~ NoDup (map row_keyword (rows infile))).
Proof.
  intros H.
  destruct (H (mkWordList [] None)
              (mkCsvFile ["keyword"; "count"; "group"; "order"]
                 [mkRow "deep learning" "3" "keyword" "0" None;
                  mkRow "deep learning" "3" "" "" None])) as [_ H2].
  destruct H2 as [e He]; [|discriminate].
  right. simpl. intros Hnd. inversion Hnd as [|x l Hnin _]; subst.
  apply Hnin. now left.
Qed.

(** C7, amended. On a file whose header has the columns [keyword], [count],
    [group] and [order] and whose rows each have a value for them,
    [from_csv] raises [ValueError], and builds no store, exactly when some
    row has a [group] field that is no label name and no label key, or an
    [order] field that is not empty and not an integer as [int] reads it;
    it raises nothing else, and otherwise it builds one term per row, in
    row order. Rows that carry the same term string are accepted. *)
Theorem from_csv_fails_iff_unreadable_row :
  forall (self : WordList) (infile : CsvFile),
    (from_csv self infile = Raise ValueError <->
     exists row, In row (rows infile) /\
                 (~ label_recognized (row_group row) \/
                  ~ order_readable (row_order row))) /\
    (forall self' : WordList,
        from_csv self infile = Ok self' ->
        List.length (items self') = List.length (rows infile) /\
        Forall2 built_from (rows infile) (items self')) /\
    (forall e : exn, from_csv self infile = Raise e -> e = ValueError).
Proof.
  intros self infile. unfold from_csv. split; [|split].
  - destruct (from_csv_loop (rows infile) []) as [ws|e] eqn:E; cbn [bind].
    + split; [discriminate|].
      intros [row [Hr Hbad]]. apply from_csv_item_Raise in Hbad.
      assert (from_csv_loop (rows infile) [] = Raise ValueError) as E'
          by (apply from_csv_loop_Raise; eauto).
      congruence.
    + assert (e = ValueError) as -> by exact (from_csv_loop_exn _ _ _ E).
      split; [|reflexivity]. intros _.
      apply from_csv_loop_Raise in E as [row [Hr Er]].
      exists row. split; [exact Hr|]. now apply from_csv_item_Raise.
  - intros self'.
    destruct (from_csv_loop (rows infile) []) as [ws|e] eqn:E; cbn [bind];
      [|discriminate].
    intros H; injection H as <-. cbn [items].
    apply from_csv_loop_Ok in E as (built & -> & HF). cbn [app].
    split; [symmetry; exact (Forall2_length HF) | exact HF].
  - intros e.
    destruct (from_csv_loop (rows infile) []) as [ws|e'] eqn:E; cbn [bind];
      [discriminate|].
    intros H. injection H as <-. exact (from_csv_loop_exn _ _ _ E).
Qed.

Lemma from_csv_fails_iff_unreadable_row_witness :
  List.length
    [mkWord 0 "deep learning" "3" KEYWORD 0 "";
     mkWord 0 "deep learning" "3" NONE (-1) ""] = 2%nat /\
  Forall2 built_from
    [mkRow "deep learning" "3" "keyword" "0" None;
     mkRow "deep learning" "3" "" "" None]
    [mkWord 0 "deep learning" "3" KEYWORD 0 "";
     mkWord 0 "deep learning" "3" NONE (-1) ""].
Proof.
  apply (proj1 (proj2 (from_csv_fails_iff_unreadable_row
                         (mkWordList [] None)
                         (mkCsvFile ["keyword"; "count"; "group"; "order"]
                            [mkRow "deep learning" "3" "keyword" "0" None;
                             mkRow "deep learning" "3" "" "" None])))
               (mkWordList
                  [mkWord 0 "deep learning" "3" KEYWORD 0 "";
                   mkWord 0 "deep learning" "3" NONE (-1) ""]
                  (Some ["keyword"; "count"; "group"; "order"; "related"]))).
  reflexivity.
Defined.

(** * Further properties of the term store *)

(** ** Labels *)

Lemma Label_eqb_spec (a b : Label) : reflect (a = b) (Label_eqb a b).
Proof. destruct a, b; simpl; constructor; congruence. Qed.

(** X1. Looking a label up by its own name, or by its own key, gives the label
    back; so no two labels share a name or a key, and a string that is the
    name of a label and the key of a label names one label only. *)
Theorem Label_lookup_round_trip :
  (forall l : Label, get_from_name (Label_name l) = Ok l) /\
  (forall l : Label, get_from_key (Label_key l) = Ok l) /\
  (forall a b : Label, Label_name a = Label_name b -> a = b) /\
  (forall a b : Label, Label_key a = Label_key b -> a = b) /\
  (forall a b : Label, Label_name a = Label_key b -> a = b).
Proof.
  repeat split.
  - intros []; reflexivity.
  - intros []; reflexivity.
  - intros [] []; simpl; intros H; try reflexivity; discriminate.
  - intros [] []; simpl; intros H; try reflexivity; discriminate.
  - intros [] []; simpl; intros H; try reflexivity; discriminate.
Qed.

Lemma lookup_group_by_name_or_key (g : string) (l : Label) :
  g = Label_name l \/ g = Label_key l ->
  try_except (get_from_name g) (get_from_key g) = Ok l.
Proof.
  intros [-> | ->]; destruct l; reflexivity.
Qed.

(** X2. A row whose [group] field is the name of a label, or its key as older
    files have it, is read as a term of that label, its [order] field being
    empty or an integer. *)
Theorem from_csv_item_group_by_name_or_key :
  forall (row : Row) (l : Label),
    row_group row = Label_name l \/ row_group row = Label_key l ->
    order_readable (row_order row) ->
    exists w : Word,
      from_csv_item row = Ok w /\ group w = l /\ built_from row w.
Proof.
  intros row l Hg Ho.
  destruct (from_csv_item row) as [w|e] eqn:E;
    [|assert (e = ValueError) as -> by exact (from_csv_item_exn _ _ E)].
  - exists w. split; [reflexivity|].
    split; [|now apply from_csv_item_Ok].
    unfold from_csv_item in E.
    rewrite (lookup_group_by_name_or_key _ l Hg) in E.
    destruct (if String.eqb (row_order row) "" then Ok (-1)
              else int (row_order row)) as [o|e]; simpl in E;
      [|discriminate].
    injection E as <-. reflexivity.
  - exfalso. apply from_csv_item_Raise in E as [E | E].
    + apply E. exists l. destruct Hg as [Hg | Hg]; rewrite Hg; auto.
    + exact (E Ho).
Qed.

Lemma from_csv_item_group_by_name_or_key_witness :
  exists w : Word,
    from_csv_item (mkRow "deep learning" "3" "x" "12" None) = Ok w /\
    group w = NOT_RELEVANT /\
    built_from (mkRow "deep learning" "3" "x" "12" None) w.
Proof.
  apply (from_csv_item_group_by_name_or_key
           (mkRow "deep learning" "3" "x" "12" None) NOT_RELEVANT).
  - right. reflexivity.
  - right. exists 12. reflexivity.
Defined.

(** ** The last classified term *)

(** X3. When some term of the store has an order that is not negative,
    [get_last_classified_word] returns a term of the store whose order is
    the greatest of the store, and [get_last_classified_order] that order. *)
Theorem last_classified_is_maximum :
  forall (self : WordList) (x : Word),
    In x (items self) -> 0 <= order x ->
    exists w : Word,
      get_last_classified_word self = Ok (Some w) /\
      get_last_classified_order self = Ok (order w) /\
      In w (items self) /\ 0 <= order w /\
      forall y, In y (items self) -> order y <= order w.
Proof.
  intros self x Hx Hpos.
  destruct (get_last_classified_word_classified self x Hx Hpos)
    as (w & Hw & Hin & Hw0 & Hub).
  exists w. repeat split; auto.
  destruct (get_last_classified_order_nonempty self) as [last Hlast].
  { intros E. rewrite E in Hx. contradiction. }
  unfold get_last_classified_word in Hw. rewrite Hlast in Hw. simpl in Hw.
  injection Hw as Hf. apply find_some in Hf as [_ Hf].
  apply Z.eqb_eq in Hf. now rewrite Hlast, Hf.
Qed.

Lemma last_classified_is_maximum_witness :
  exists w : Word,
    get_last_classified_word
      (mkWordList [mkWord 0 "deep learning" "3" KEYWORD 1 "";
                   mkWord 0 "neural networks" "5" NOISE 0 "";
                   mkWord 0 "networks topology" "2" NONE (-1) ""] None)
    = Ok (Some w) /\
    get_last_classified_order
      (mkWordList [mkWord 0 "deep learning" "3" KEYWORD 1 "";
                   mkWord 0 "neural networks" "5" NOISE 0 "";
                   mkWord 0 "networks topology" "2" NONE (-1) ""] None)
    = Ok (order w) /\
    In w [mkWord 0 "deep learning" "3" KEYWORD 1 "";
          mkWord 0 "neural networks" "5" NOISE 0 "";
          mkWord 0 "networks topology" "2" NONE (-1) ""] /\
    0 <= order w /\
    forall y,
      In y [mkWord 0 "deep learning" "3" KEYWORD 1 "";
            mkWord 0 "neural networks" "5" NOISE 0 "";
            mkWord 0 "networks topology" "2" NONE (-1) ""] ->
      order y <= order w.
Proof.
  apply (last_classified_is_maximum
           (mkWordList [mkWord 0 "deep learning" "3" KEYWORD 1 "";
                        mkWord 0 "neural networks" "5" NOISE 0 "";
                        mkWord 0 "networks topology" "2" NONE (-1) ""] None)
           (mkWord 0 "neural networks" "5" NOISE 0 "")).
  - simpl. right; left; reflexivity.
  - simpl. lia.
Defined.

(** ** Counts *)

Lemma count_by_class_cons (w : Word) (l : list Word) (h : option (list string))
  (cls : Label) :
  count_by_class (mkWordList (w :: l) h) cls
  = b2z (Label_eqb (group w) cls) + count_by_class (mkWordList l h) cls.
Proof.
  unfold count_by_class. simpl.
  destruct (Label_eqb (group w) cls); simpl List.length; unfold b2z; lia.
Qed.

Lemma count_classified_cons (w : Word) (l : list Word)
  (h : option (list string)) :
  count_classified (mkWordList (w :: l) h)
  = b2z (is_grouped w) + count_classified (mkWordList l h).
Proof.
  unfold count_classified. simpl.
  destruct (is_grouped w); simpl List.length; unfold b2z; lia.
Qed.

(** X4. Every term is counted once: the classified terms and the terms of
    label [NONE] make up the store, and the classified terms are those of
    the five other labels. *)
Theorem counts_partition_the_store :
  forall self : WordList,
    count_classified self + count_by_class self NONE
    = Z.of_nat (List.length (items self)) /\
    count_classified self
    = count_by_class self KEYWORD + count_by_class self NOISE
      + count_by_class self RELEVANT + count_by_class self NOT_RELEVANT
      + count_by_class self POSTPONED.
Proof.
  intros [l h]. induction l as [|w l [IH1 IH2]].
  - split; reflexivity.
  - rewrite count_classified_cons, !count_by_class_cons.
    simpl items in *. simpl List.length. unfold is_grouped.
    rewrite Nat2Z.inj_succ.
    destruct (group w); cbn [Label_eqb negb b2z]; split; lia.
Qed.

(** X5. [mark_word] on a string of the store moves one term from the count of
    its former label to the count of the new one. *)
Theorem mark_word_moves_one_count :
  forall (self : WordList) (s : string) (marker : Label) (o : Z)
         (r : string),
    In s (map word (items self)) ->
    exists (w : Word) (self' : WordList),
      find (fun x => String.eqb (word x) s) (items self) = Some w /\
      mark_word self s marker o r = Ok self' /\
      forall cls : Label,
        count_by_class self' cls
        = count_by_class self cls
          + b2z (Label_eqb marker cls) - b2z (Label_eqb (group w) cls).
Proof.
  intros [l h] s marker o r. unfold mark_word. simpl.
  induction l as [|x l IH]; simpl; intros Hin; [contradiction|].
  destruct (String.eqb_spec (word x) s) as [E | NE].
  - exists x. eexists. split; [reflexivity|]. split; [reflexivity|].
    intros cls. rewrite !count_by_class_cons. simpl. lia.
  - destruct Hin as [E | Hin]; [contradiction|].
    destruct (IH Hin) as (w & self' & Hf & Hm & Hc).
    injection Hm as <-.
    exists w. eexists. split; [exact Hf|]. split; [reflexivity|].
    intros cls. specialize (Hc cls).
    rewrite !count_by_class_cons. lia.
Qed.

Lemma mark_word_moves_one_count_witness :
  exists (w : Word) (self' : WordList),
    find (fun x => String.eqb (word x) "neural networks")
      [mkWord 0 "deep learning" "3" KEYWORD 0 "";
       mkWord 0 "neural networks" "5" NONE (-1) ""]
    = Some w /\
    mark_word
      (mkWordList [mkWord 0 "deep learning" "3" KEYWORD 0 "";
                   mkWord 0 "neural networks" "5" NONE (-1) ""] None)
      "neural networks" KEYWORD 1 ""
    = Ok self' /\
    forall cls : Label,
      count_by_class self' cls
      = count_by_class
          (mkWordList [mkWord 0 "deep learning" "3" KEYWORD 0 "";
                       mkWord 0 "neural networks" "5" NONE (-1) ""] None)
          cls
        + b2z (Label_eqb KEYWORD cls) - b2z (Label_eqb (group w) cls).
Proof.
  apply (mark_word_moves_one_count
           (mkWordList [mkWord 0 "deep learning" "3" KEYWORD 0 "";
                        mkWord 0 "neural networks" "5" NONE (-1) ""] None)
           "neural networks" KEYWORD 1 "").
  simpl. right; left; reflexivity.
Defined.

(** ** Writing the store and reading it back *)

Lemma uint_value_of_uint_acc (d : Decimal.uint) (acc : positive) :
  Z.pos (Pos.of_uint_acc d acc) = uint_value d (Z.pos acc).
Proof.
  revert acc; induction d; intros acc;
    cbn [Pos.of_uint_acc uint_value]; try reflexivity;
    rewrite IHd; f_equal; lia.
Qed.

Lemma uint_value_of_uint (d : Decimal.uint) :
  Z.of_N (Pos.of_uint d) = uint_value d 0.
Proof.
  induction d; cbn [Pos.of_uint uint_value Z.of_N]; try reflexivity;
    try exact IHd; apply uint_value_of_uint_acc.
Qed.

Lemma int_digits_digit (c : ascii) (s : string) (acc : Z) :
  isdigit c = true ->
  int_digits acc (String c s) = int_digits (10 * acc + digit_value c) s.
Proof. intros H. cbn [int_digits]. now rewrite H. Qed.

Lemma int_digits_string_of_uint (d : Decimal.uint) (acc : Z) :
  int_digits acc (DecimalString.NilEmpty.string_of_uint d)
  = Some (uint_value d acc).
Proof.
  revert acc; induction d; intros acc;
    cbn [DecimalString.NilEmpty.string_of_uint uint_value];
    try reflexivity;
    rewrite int_digits_digit by reflexivity; rewrite IHd; do 2 f_equal;
    match goal with
    | |- context [digit_value ?c] =>
        let v := eval vm_compute in (digit_value c) in
        change (digit_value c) with v
    end; lia.
Qed.

Lemma string_of_uint_no_space (d : Decimal.uint) :
  no_space (DecimalString.NilEmpty.string_of_uint d) = true.
Proof.
  induction d; cbn [DecimalString.NilEmpty.string_of_uint no_space];
    try reflexivity; rewrite IHd; reflexivity.
Qed.

Lemma int_isspace_isspace (c : ascii) :
  int_isspace c = true -> isspace c = true.
Proof.
  unfold int_isspace, isspace. cbv zeta. intros H.
  apply orb_true_iff in H as [H | H].
  - now rewrite H.
  - apply Nat.eqb_eq in H. now rewrite H.
Qed.

Lemma not_isspace_not_int_isspace (c : ascii) :
  negb (isspace c) = true -> int_isspace c = false.
Proof.
  intros H. apply negb_true_iff in H.
  destruct (int_isspace c) eqn:E; [|reflexivity].
  apply int_isspace_isspace in E. congruence.
Qed.

Lemma int_skip_trailing_no_space (s : string) :
  no_space s = true -> int_skip_trailing s = s.
Proof.
  induction s as [|c s IH]; [reflexivity|].
  cbn [no_space int_skip_trailing]. intros H.
  apply andb_prop in H as [Hc Hs].
  rewrite (IH Hs). destruct s; [|reflexivity].
  now rewrite (not_isspace_not_int_isspace _ Hc).
Qed.

Lemma int_skip_leading_no_space (s : string) :
  no_space s = true -> int_skip_leading s = s.
Proof.
  destruct s as [|c s]; [reflexivity|].
  cbn [no_space int_skip_leading]. intros H.
  apply andb_prop in H as [Hc _].
  now rewrite (not_isspace_not_int_isspace _ Hc).
Qed.

(** [int] reads a decimal numeral without leading sign as its value. *)
Lemma int_string_of_uint (d : Decimal.uint) :
  d <> Decimal.Nil ->
  int (DecimalString.NilEmpty.string_of_uint d) = Ok (uint_value d 0).
Proof.
  intros Hd. unfold int, int_skip_space.
  rewrite int_skip_leading_no_space, int_skip_trailing_no_space
    by apply string_of_uint_no_space.
  assert (H : int_literal (DecimalString.NilEmpty.string_of_uint d)
              = Some (uint_value d 0)).
  { unfold int_literal. rewrite int_digits_string_of_uint.
    destruct d; try contradiction; reflexivity. }
  destruct d; try contradiction;
    cbn [DecimalString.NilEmpty.string_of_uint] in *; now rewrite H.
Qed.

(** [int(str(n))] is [n] for an [n] that is not negative, and [str(n)] is
    not the empty string. *)
Lemma int_str_nonneg (z : Z) :
  0 <= z -> int (str_nonneg z) = Ok z /\ str_nonneg z <> "".
Proof.
  intros Hz. unfold str_nonneg.
  assert (Hn : N.to_uint (Z.to_N z) <> Decimal.Nil).
  { destruct (Z.to_N z); [discriminate|].
    apply DecimalPos.Unsigned.to_uint_nonnil. }
  assert (E : DecimalString.NilZero.string_of_uint (N.to_uint (Z.to_N z))
              = DecimalString.NilEmpty.string_of_uint
                  (N.to_uint (Z.to_N z))).
  { destruct (N.to_uint (Z.to_N z)); try reflexivity. contradiction. }
  rewrite E. split.
  - rewrite int_string_of_uint by exact Hn.
    rewrite <- uint_value_of_uint.
    change (Pos.of_uint (N.to_uint (Z.to_N z)))
      with (N.of_uint (N.to_uint (Z.to_N z))).
    rewrite DecimalN.Unsigned.of_to. f_equal. lia.
  - destruct (N.to_uint (Z.to_N z)); try contradiction; discriminate.
Qed.

Lemma from_csv_item_to_csv_item (w : Word) :
  index w = 0 -> -1 <= order w -> from_csv_item (to_csv_item w) = Ok w.
Proof.
  intros Hi Ho. unfold from_csv_item, to_csv_item.
  cbn [row_order row_group row_related row_keyword row_count].
  rewrite (lookup_group_by_name_or_key _ (group w) (or_introl eq_refl)).
  destruct (0 <=? order w) eqn:Hpos.
  - apply Z.leb_le in Hpos.
    destruct (int_str_nonneg (order w) Hpos) as [Hint Hne].
    destruct (String.eqb_spec (str_nonneg (order w)) "") as [E | _];
      [contradiction|].
    rewrite Hint. simpl. destruct w; simpl in *; now subst.
  - apply Z.leb_gt in Hpos. simpl.
    destruct w; simpl in *; subst. f_equal. f_equal. lia.
Qed.

Lemma from_csv_loop_to_csv_rows (l : list Word) :
  forall acc : list Word,
    Forall (fun w => index w = 0 /\ -1 <= order w) l ->
    from_csv_loop (map to_csv_item l) acc = Ok (acc ++ l)%list.
Proof.
  induction l as [|w l IH]; intros acc H; simpl.
  - now rewrite app_nil_r.
  - inversion H as [|x l' [Hi Ho] Hl]; subst.
    rewrite (from_csv_item_to_csv_item w Hi Ho). simpl.
    rewrite (IH _ Hl), <- app_assoc. reflexivity.
Qed.

Lemma from_csv_to_csv_rows (self other : WordList) (header : list string) :
  csv_header self = Some header ->
  In "related" header ->
  Forall (fun w => index w = 0 /\ -1 <= order w) (items self) ->
  from_csv other (mkCsvFile header (to_csv_rows self)) = Ok self.
Proof.
  destruct self as [l h]. cbn [csv_header items].
  intros -> Hrel Hok.
  unfold from_csv, to_csv_rows. cbn [rows fieldnames items].
  rewrite from_csv_loop_to_csv_rows by exact Hok.
  cbn [bind app].
  replace (existsb (String.eqb "related") header) with true; [reflexivity|].
  symmetry. apply existsb_exists. exists "related".
  split; [exact Hrel | apply String.eqb_refl].
Qed.


Lemma writerow_accepts (fieldnames : list string) (row : Row) :
  (forall k, In k item_keys -> In k fieldnames) ->
  writerow fieldnames row = Ok row.
Proof.
  intros H. unfold writerow.
  replace (forallb (fun k => existsb (String.eqb k) fieldnames) item_keys)
    with true; [reflexivity|].
  symmetry. apply forallb_forall. intros k Hk.
  apply existsb_exists. exists k. split; [now apply H|].
  apply String.eqb_refl.
Qed.

Lemma writerow_refuses (fieldnames : list string) (row : Row) (k : string) :
  In k item_keys -> ~ In k fieldnames ->
  writerow fieldnames row = Raise ValueError.
Proof.
  intros Hk Hn. unfold writerow.
  destruct (forallb (fun k => existsb (String.eqb k) fieldnames) item_keys)
    eqn:E; [|reflexivity].
  exfalso. apply Hn.
  pose proof (proj1 (forallb_forall _ _) E k Hk) as Hex.
  apply existsb_exists in Hex as [x [Hx Ex]].
  apply String.eqb_eq in Ex. now subst.
Qed.

Lemma to_csv_loop_accepts (fieldnames : list string) (l : list Word) :
  forall written : list Row,
    (forall k, In k item_keys -> In k fieldnames) ->
    to_csv_loop fieldnames l written
    = Ok (written ++ map to_csv_item l)%list.
Proof.
  induction l as [|w l IH]; intros written H; simpl.
  - now rewrite app_nil_r.
  - rewrite writerow_accepts by exact H. cbn [bind].
    rewrite IH by exact H. now rewrite <- app_assoc.
Qed.

(** [to_csv] refuses to write a store that has items under a header that
    lacks one of the columns of an item, and a store without header. *)
Lemma to_csv_refuses (self : WordList) :
  (csv_header self = None -> to_csv self = Raise TypeError) /\
  (forall (header : list string) (k : string),
      csv_header self = Some header -> items self <> [] ->
      In k item_keys -> ~ In k header ->
      to_csv self = Raise ValueError).
Proof.
  unfold to_csv. split.
  - intros ->. reflexivity.
  - intros header k -> Hne Hk Hn.
    destruct (items self) as [|w l]; [contradiction|]. simpl.
    now rewrite (writerow_refuses _ _ k Hk Hn).
Qed.

(** X6. [to_csv] writes a store whose header has the five columns of an
    item, and the file it writes, read back by [from_csv], rebuilds the
    store: nothing is lost when every term has the index [0] that
    [from_csv] gives and an order that is [-1] or more. *)
Theorem to_csv_from_csv_round_trip :
  forall (self other : WordList) (header : list string),
    csv_header self = Some header ->
    (forall k, In k item_keys -> In k header) ->
    (forall w, In w (items self) -> index w = 0 /\ -1 <= order w) ->
    exists written : CsvFile,
      to_csv self = Ok written /\
      from_csv other written = Ok self.
Proof.
  intros self other header Hh Hkeys Hok.
  exists (mkCsvFile header (to_csv_rows self)). split.
  - unfold to_csv. rewrite Hh.
    rewrite to_csv_loop_accepts by exact Hkeys. reflexivity.
  - apply from_csv_to_csv_rows; auto.
    + apply Hkeys. unfold item_keys. simpl. do 4 right. now left.
    + apply Forall_forall. exact Hok.
Qed.

Lemma to_csv_from_csv_round_trip_witness :
  exists written : CsvFile,
    to_csv
      (mkWordList
         [mkWord 0 "deep learning" "3" KEYWORD 12 "";
          mkWord 0 "neural networks" "5" POSTPONED 0 "deep learning";
          mkWord 0 "networks topology" "2" NONE (-1) ""]
         (Some ["keyword"; "count"; "group"; "order"; "related"]))
    = Ok written /\
    from_csv (mkWordList [] None) written
    = Ok (mkWordList
            [mkWord 0 "deep learning" "3" KEYWORD 12 "";
             mkWord 0 "neural networks" "5" POSTPONED 0 "deep learning";
             mkWord 0 "networks topology" "2" NONE (-1) ""]
            (Some ["keyword"; "count"; "group"; "order"; "related"])).
Proof.
  apply (to_csv_from_csv_round_trip
           (mkWordList
              [mkWord 0 "deep learning" "3" KEYWORD 12 "";
               mkWord 0 "neural networks" "5" POSTPONED 0 "deep learning";
               mkWord 0 "networks topology" "2" NONE (-1) ""]
              (Some ["keyword"; "count"; "group"; "order"; "related"]))
           (mkWordList [] None)
           ["keyword"; "count"; "group"; "order"; "related"]).
  - reflexivity.
  - intros k Hk. exact Hk.
  - simpl. intros w [<- | [<- | [<- | []]]]; simpl; lia.
Defined.

(** * Further properties of the session *)

Lemma find_app_first {A : Type} (f : A -> bool) (l1 l2 : list A) (w : A) :
  (forall x, In x l1 -> f x = false) -> f w = true ->
  find f (l1 ++ w :: l2) = Some w.
Proof.
  induction l1 as [|x l1 IH]; simpl; intros Hl Hw.
  - now rewrite Hw.
  - rewrite (Hl x (or_introl eq_refl)). apply IH; auto.
Qed.

Lemma mark_word_loop_app (before after : list Word) (w : Word) (s : string)
  (marker : Label) (o : Z) (r : string) :
  ~ In s (map word before) -> word w = s ->
  mark_word_loop (before ++ w :: after) s marker o r
  = (before ++ marked w marker o r :: after)%list.
Proof.
  intros Hb Hw. subst s. induction before as [|x before IH]; simpl.
  - rewrite String.eqb_refl. reflexivity.
  - simpl in Hb. destruct (String.eqb_spec (word x) (word w)) as [E | NE].
    + exfalso. apply Hb. now left.
    + f_equal. apply IH. intros H. apply Hb. now right.
Qed.

(** A term of order [0] or more, above the terms before it and not below
    the terms after it, is the last classified term. *)
Lemma get_last_classified_word_first_max (before after : list Word)
  (w : Word) (h : option (list string)) :
  0 <= order w ->
  (forall x, In x before -> order x < order w) ->
  (forall x, In x after -> order x <= order w) ->
  get_last_classified_word (mkWordList (before ++ w :: after) h)
  = Ok (Some w).
Proof.
  intros Hw Hb Ha.
  unfold get_last_classified_word, get_last_classified_order. simpl items.
  destruct (py_max (map order (before ++ w :: after))) as [m|e] eqn:E.
  - apply py_max_spec in E as [Hin Hub]. simpl.
    assert (Hm : m = order w).
    { apply Z.le_antisymm.
      - apply in_map_iff in Hin as [y [<- Hy]].
        apply in_app_or in Hy as [Hy | [<- | Hy]];
          [specialize (Hb y Hy) | | specialize (Ha y Hy)]; lia.
      - apply Hub, in_map, in_or_app. right; now left. }
    subst m.
    replace (order w <? 0) with false by (symmetry; apply Z.ltb_ge; lia).
    f_equal. apply find_app_first.
    + intros x Hx. apply Z.eqb_neq. specialize (Hb x Hx). lia.
    + apply Z.eqb_refl.
  - destruct before; discriminate.
Qed.

Lemma classify_terms (label : Label) (terms terms' : WordList)
  (review : Label) (t : Word) (key : string) (cnt : Z)
  (out : Queue * Z * string) :
  classify label terms review t key cnt = Ok (terms', out) ->
  exists last,
    get_last_classified_order terms = Ok last /\
    terms' = mkWordList
               (mark_word_loop (items terms) (word t) label (last + 1) key)
               (csv_header terms).
Proof.
  rewrite classify_store.
  destruct (get_last_classified_order terms) as [last|e]; simpl;
    [|discriminate].
  intros H. injection H as <- _. eauto.
Qed.

(** What [undo] writes, whatever the lookup of the last classified term
    is: nothing, or one [mark_word] that takes a term back. *)
Lemma undo_with_terms
  (lookup : WordList -> result (option Word))
  (terms terms' : WordList) (queue : Queue) (review : Label) (key : string)
  (cnt : Z) (out : Queue * Z * string) :
  undo_with lookup terms queue review key cnt = Ok (terms', out) ->
  terms' = terms \/
  exists last_word,
    terms' = mkWordList
               (mark_word_loop (items terms) (word last_word) review (-1) "")
               (csv_header terms).
Proof.
  unfold undo_with, classify_term, mark_word, return_related_items.
  destruct (lookup terms) as [[lw|]|e]; cbn [bind]; [| |discriminate].
  - rewrite return_related_items_loop_skips.
    destruct (String.eqb (related lw) key); [destruct queue|]; cbn [bind items_insert_front];
      intros H; try discriminate;
      injection H as <- _; right; exists lw; reflexivity.
  - intros H. injection H as <- _. now left.
Qed.

(** What an action of the session writes: nothing, or one [mark_word]
    with an order that is [-1] or more. *)
Lemma step_terms (review : Label) (s s' : Session) (a : Action) :
  step review s a = Ok s' ->
  terms s' = terms s \/
  exists (str : string) (marker : Label) (o : Z) (r : string),
    -1 <= o /\
    terms s' = mkWordList
                 (mark_word_loop (items (terms s)) str marker o r)
                 (csv_header (terms s)).
Proof.
  intros Hstep. destruct a as [label t | t |]; simpl in Hstep.
  - unfold do_classify in Hstep.
    destruct (classify label (terms s) review t _ (related_items_count s))
      as [[terms' [[q c] k]]|e] eqn:E; simpl in Hstep; [|discriminate].
    injection Hstep as <-. simpl.
    apply classify_terms in E as (last & Hlast & ->).
    apply get_last_classified_order_spec in Hlast as [Hlow _].
    right. do 4 eexists. split; [|reflexivity]. lia.
  - unfold do_postpone, classify_term, mark_word in Hstep.
    destruct (get_last_classified_order (terms s)) as [last|e] eqn:Hlast;
      simpl in Hstep; [|discriminate].
    rewrite return_related_items_loop_skips in Hstep.
    apply get_last_classified_order_spec in Hlast as [Hlow _].
    destruct (0 <? related_items_count s - 1); simpl in Hstep;
      injection Hstep as <-; simpl; right;
      do 4 eexists; (split; [|reflexivity]); lia.
  - destruct (undo (terms s) (to_classify s) review _
                   (related_items_count s))
      as [[terms' [[q c] k]]|e] eqn:E; simpl in Hstep; [|discriminate].
    injection Hstep as <-. simpl.
    apply undo_with_terms in E as [-> | (lw & ->)]; [now left|].
    right. exists (word lw), review, (-1), "". split; [lia|reflexivity].
Qed.

(** An invariant of the store that one [mark_word] with an order of [-1]
    or more keeps is kept by every run of actions. *)
Lemma run_invariant (P : WordList -> Prop) :
  (forall (self : WordList) (str : string) (marker : Label) (o : Z)
          (r : string),
      -1 <= o -> P self ->
      P (mkWordList (mark_word_loop (items self) str marker o r)
                    (csv_header self))) ->
  forall (review : Label) (actions : list Action) (s s' : Session),
    run review s actions = Ok s' -> P (terms s) -> P (terms s').
Proof.
  intros Hmark review actions.
  induction actions as [|a actions IH]; simpl; intros s s' Hrun HP.
  - injection Hrun as <-. exact HP.
  - destruct (step review s a) as [s1|e] eqn:E; simpl in Hrun;
      [|discriminate].
    apply (IH s1 s' Hrun).
    apply step_terms in E as [-> | (str & m & o & r & Ho & ->)];
      [exact HP | now apply Hmark].
Qed.

Lemma mark_word_loop_identity (l : list Word) (s : string) (marker : Label)
  (o : Z) (r : string) :
  map identity (mark_word_loop l s marker o r) = map identity l.
Proof.
  induction l as [|w l IH]; simpl; [reflexivity|].
  destruct (String.eqb (word w) s); simpl; [reflexivity|].
  now rewrite IH.
Qed.


(** X7. Along every run of classify, postpone and undo actions that returns,
    the store keeps its terms: the same indexes, strings and counts in the
    same places, and the same header. *)
Theorem run_keeps_the_terms :
  forall (review : Label) (actions : list Action) (s s' : Session),
    run review s actions = Ok s' ->
    map identity (items (terms s')) = map identity (items (terms s)) /\
    csv_header (terms s') = csv_header (terms s).
Proof.
  intros review actions s s' Hrun.
  apply (run_invariant
           (fun t => map identity (items t) = map identity (items (terms s))
                     /\ csv_header t = csv_header (terms s))
           ltac:(intros self str m o r _ [H1 H2]; simpl;
                 now rewrite mark_word_loop_identity)
           review actions s s' Hrun).
  split; reflexivity.
Qed.

Lemma run_keeps_the_terms_witness :
  map identity
    [mkWord 0 "deep learning" "3" KEYWORD 0 "";
     mkWord 0 "neural networks" "5" POSTPONED 1 ""]
  = map identity
      [mkWord 0 "deep learning" "3" NONE (-1) "";
       mkWord 0 "neural networks" "5" NONE (-1) ""] /\
  @None (list string) = None.
Proof.
  apply (run_keeps_the_terms NONE
           [Classify KEYWORD (mkWord 0 "deep learning" "3" NONE (-1) "");
            Undo;
            Classify KEYWORD (mkWord 0 "deep learning" "3" NONE (-1) "");
            Postpone (mkWord 0 "neural networks" "5" NONE (-1) "")]
           (mkSession
              (mkWordList [mkWord 0 "deep learning" "3" NONE (-1) "";
                           mkWord 0 "neural networks" "5" NONE (-1) ""]
                          None)
              (term_list ["deep learning"; "neural networks"])
              "learning" 1)
           (mkSession
              (mkWordList
                 [mkWord 0 "deep learning" "3" KEYWORD 0 "";
                  mkWord 0 "neural networks" "5" POSTPONED 1 ""] None)
              (term_list []) "" (-1))).
  reflexivity.
Defined.




(** ** Classify and undo *)

(** The store after [classify] on a term it has: the first term with the
    string carries the new label, the order after the last one and the
    anchor in force; it stands above every other term. *)
Lemma classify_present (label : Label) (terms : WordList) (review : Label)
  (t : Word) (key : string) (cnt : Z) :
  In (word t) (map word (items terms)) ->
  exists (last : Z) (before : list Word) (w : Word) (after : list Word)
         (out : Queue * Z * string),
    items terms = (before ++ w :: after)%list /\
    word w = word t /\ ~ In (word t) (map word before) /\
    -1 <= last /\
    (forall x, In x (items terms) -> order x <= last) /\
    classify label terms review t key cnt
    = Ok (mkWordList (before ++ marked w label (last + 1) key :: after)
                     (csv_header terms), out).
Proof.
  intros Hin. rewrite classify_store.
  destruct (get_last_classified_order_nonempty terms) as [last Hlast].
  { intros E. rewrite E in Hin. contradiction. }
  rewrite Hlast. cbn [bind].
  destruct (mark_word_loop_present _ _ label (last + 1) key Hin)
    as (before & w & after & Hl & Hw & Hb & ->).
  apply get_last_classified_order_spec in Hlast as [Hlow Hub].
  exists last, before, w, after. eexists. repeat split; eauto.
Qed.

(** X9. The term that [classify] has just written is the one
    [get_last_classified_word] returns next: it is the target of undo. *)
Theorem classify_is_last_classified :
  forall (label : Label) (terms : WordList) (review : Label) (t : Word)
         (key : string) (cnt : Z),
    In (word t) (map word (items terms)) ->
    exists (terms' : WordList) (out : Queue * Z * string) (w' : Word),
      classify label terms review t key cnt = Ok (terms', out) /\
      find (fun w => String.eqb (word w) (word t)) (items terms') = Some w' /\
      group w' = label /\
      get_last_classified_word terms' = Ok (Some w').
Proof.
  intros label terms review t key cnt Hin.
  destruct (classify_present label terms review t key cnt Hin)
    as (last & before & w & after & out & Hl & Hw & Hb & Hlow & Hub & Hc).
  do 3 eexists. split; [exact Hc|]. cbn [items]. split; [|split].
  - apply find_app_first.
    + intros x Hx. apply String.eqb_neq. intros E. apply Hb.
      rewrite <- E. now apply in_map.
    + simpl. rewrite Hw. apply String.eqb_refl.
  - reflexivity.
  - apply get_last_classified_word_first_max; simpl.
    + lia.
    + intros x Hx. assert (order x <= last); [|lia].
      apply Hub. rewrite Hl. apply in_or_app. now left.
    + intros x Hx. assert (order x <= last); [|lia].
      apply Hub. rewrite Hl. apply in_or_app. right. now right.
Qed.

Lemma classify_is_last_classified_witness :
  exists (terms' : WordList) (out : Queue * Z * string) (w' : Word),
    classify RELEVANT
      (mkWordList [mkWord 0 "deep learning" "3" KEYWORD 0 "";
                   mkWord 0 "neural networks" "5" NONE (-1) ""] None)
      NONE (mkWord 0 "neural networks" "5" NONE (-1) "") "" 0
    = Ok (terms', out) /\
    find (fun w => String.eqb (word w) "neural networks") (items terms')
    = Some w' /\
    group w' = RELEVANT /\
    get_last_classified_word terms' = Ok (Some w').
Proof.
  apply (classify_is_last_classified RELEVANT
           (mkWordList [mkWord 0 "deep learning" "3" KEYWORD 0 "";
                        mkWord 0 "neural networks" "5" NONE (-1) ""] None)
           NONE (mkWord 0 "neural networks" "5" NONE (-1) "") "" 0).
  simpl. right; left; reflexivity.
Defined.

(** [undo] on a store whose last classified term is [w]: it takes [w]
    back and returns, unless it has to put [w] in front of a queue that is
    a plain list. *)
Lemma undo_last (terms : WordList) (queue : Queue) (review : Label)
  (key : string) (cnt : Z) (w : Word) :
  get_last_classified_word terms = Ok (Some w) ->
  ((related w <> key \/ exists l, queue = term_list l) ->
   exists out : Queue * Z * string,
     undo terms queue review key cnt
     = Ok (mkWordList (mark_word_loop (items terms) (word w) review (-1) "")
                      (csv_header terms), out)) /\
  (related w = key -> (exists l, queue = plain_list l) ->
   undo terms queue review key cnt = Raise AttributeError).
Proof.
  intros Hlast.
  unfold undo, undo_with, get_last_classified_term, classify_term,
    mark_word, return_related_items.
  rewrite Hlast. cbn [bind].
  rewrite return_related_items_loop_skips.
  destruct (String.eqb_spec (related w) key) as [E | NE]; split.
  - intros [H | [l ->]]; [contradiction|].
    cbn [bind items_insert_front]. eauto.
  - intros _ [l ->]. reflexivity.
  - intros _. cbn [bind]. eauto.
  - intros E. contradiction.
Qed.

(** X10. Classifying a term that is still to be classified (the label under
    review, order [-1], no related string) and undoing at once gives the
    store back as it was, whenever the undo returns: it does when the
    queue it is given is a [TermList], or when the anchor it is given is
    not the one the term was classified under. Given that anchor and a
    plain list, as [classify] returns it, the undo raises [AttributeError]
    on [to_classify.items]. *)
Theorem classify_then_undo_restores_the_store :
  forall (label review : Label) (before after : list Word) (w t : Word)
         (h : option (list string)) (key key' : string) (cnt cnt' : Z)
         (queue : Queue),
    word t = word w ->
    ~ In (word w) (map word before) ->
    group w = review -> order w = -1 -> related w = "" ->
    exists (terms1 : WordList) (out1 : Queue * Z * string),
      classify label (mkWordList (before ++ w :: after) h) review t key cnt
      = Ok (terms1, out1) /\
      ((key <> key' \/ exists l, queue = term_list l) ->
       exists out2 : Queue * Z * string,
         undo terms1 queue review key' cnt'
         = Ok (mkWordList (before ++ w :: after) h, out2)) /\
      (key = key' -> (exists l, queue = plain_list l) ->
       undo terms1 queue review key' cnt' = Raise AttributeError).
Proof.
  intros label review before after w t h key key' cnt cnt' queue
         Ht Hb Hg Ho Hr.
  set (terms := mkWordList (before ++ w :: after) h).
  destruct (get_last_classified_order_nonempty terms) as [last Hlast].
  { simpl. destruct before; discriminate. }
  pose proof (get_last_classified_order_spec _ _ Hlast) as [Hlow Hub].
  assert (Hlw : get_last_classified_word
                  (mkWordList
                     (before ++ marked w label (last + 1) key :: after) h)
                = Ok (Some (marked w label (last + 1) key))).
  { apply get_last_classified_word_first_max; simpl.
    - lia.
    - intros x Hx. assert (order x <= last); [|lia].
      apply Hub. simpl. apply in_or_app. now left.
    - intros x Hx. assert (order x <= last); [|lia].
      apply Hub. simpl. apply in_or_app. right. now right. }
  destruct (undo_last _ queue review key' cnt' _ Hlw) as [Hret Hraise].
  exists (mkWordList (before ++ marked w label (last + 1) key :: after) h).
  eexists. split; [|split].
  - rewrite classify_store, Hlast. cbn [bind]. subst terms.
    cbn [items csv_header]. rewrite Ht.
    rewrite mark_word_loop_app by auto. reflexivity.
  - intros Hq. destruct (Hret Hq) as [out2 Hu]. exists out2.
    rewrite Hu. cbn [items csv_header].
    change (word (marked w label (last + 1) key)) with (word w).
    rewrite mark_word_loop_app by auto.
    do 3 f_equal. destruct w; simpl in *; subst; reflexivity.
  - exact Hraise.
Qed.

Lemma classify_then_undo_restores_the_store_witness :
  exists (terms1 : WordList) (out1 : Queue * Z * string),
    classify KEYWORD
      (mkWordList
         ([mkWord 0 "deep learning" "3" NOISE 0 ""]
          ++ mkWord 0 "neural networks" "5" NONE (-1) ""
          :: [mkWord 0 "networks topology" "2" NONE (-1) ""]) None)
      NONE (mkWord 0 "neural networks" "5" NONE (-1) "") "learning" 1
    = Ok (terms1, out1) /\
    (("learning" <> "" \/ exists l, plain_list [] = term_list l) ->
     exists out2 : Queue * Z * string,
       undo terms1 (plain_list []) NONE "" 0
       = Ok (mkWordList
               ([mkWord 0 "deep learning" "3" NOISE 0 ""]
                ++ mkWord 0 "neural networks" "5" NONE (-1) ""
                :: [mkWord 0 "networks topology" "2" NONE (-1) ""]) None,
             out2)) /\
    ("learning" = "" -> (exists l, plain_list [] = plain_list l) ->
     undo terms1 (plain_list []) NONE "" 0 = Raise AttributeError).
Proof.
  apply (classify_then_undo_restores_the_store KEYWORD NONE
           [mkWord 0 "deep learning" "3" NOISE 0 ""]
           [mkWord 0 "networks topology" "2" NONE (-1) ""]
           (mkWord 0 "neural networks" "5" NONE (-1) "")
           (mkWord 0 "neural networks" "5" NONE (-1) "")
           None "learning" "" 1 0 (plain_list [])).
  - reflexivity.
  - simpl. intros [E | []]. discriminate.
  - reflexivity.
  - reflexivity.
  - reflexivity.
Defined.

(** X11. In a store whose term strings are pairwise distinct and in which
    some term is classified, [undo] has the term of greatest order as its
    target. When it returns, that term is back to the label under review,
    with order [-1] and no related string, and every other term is as it
    was; it returns when the queue it is given is a [TermList], or when the
    anchor it is given is not the related string of the target. Given that
    string as the anchor and a plain list, it raises [AttributeError] on
    [to_classify.items]. *)
Theorem undo_reverts_the_last_classified :
  forall (terms : WordList) (queue : Queue) (review : Label)
         (key : string) (cnt : Z) (x : Word),
    NoDup (map word (items terms)) ->
    In x (items terms) -> 0 <= order x ->
    exists (before : list Word) (w : Word) (after : list Word),
      items terms = (before ++ w :: after)%list /\
      0 <= order w /\
      (forall y, In y (items terms) -> order y <= order w) /\
      ((related w <> key \/ exists l, queue = term_list l) ->
       exists out : Queue * Z * string,
         undo terms queue review key cnt
         = Ok (mkWordList (before ++ marked w review (-1) "" :: after)
                          (csv_header terms), out)) /\
      (related w = key -> (exists l, queue = plain_list l) ->
       undo terms queue review key cnt = Raise AttributeError).
Proof.
  intros terms queue review key cnt x Hnd Hx Hpos.
  destruct (get_last_classified_word_classified terms x Hx Hpos)
    as (w & Hlast & Hin & Hw0 & Hub).
  destruct (in_split _ _ Hin) as (before & after & Hl).
  destruct (undo_last terms queue review key cnt w Hlast) as [Hret Hraise].
  exists before, w, after. repeat split; auto.
  intros Hq. destruct (Hret Hq) as [out Hu]. exists out.
  rewrite Hu. do 3 f_equal. rewrite Hl.
  apply mark_word_loop_app; [|reflexivity].
  rewrite Hl, map_app in Hnd. simpl in Hnd.
  apply NoDup_remove_2 in Hnd. intros H. apply Hnd.
  apply in_or_app. now left.
Qed.

Lemma undo_reverts_the_last_classified_witness :
  exists (before : list Word) (w : Word) (after : list Word),
    [mkWord 0 "deep learning" "3" KEYWORD 1 "";
     mkWord 0 "neural networks" "5" NOISE 0 ""]
    = (before ++ w :: after)%list /\
    0 <= order w /\
    (forall y,
        In y [mkWord 0 "deep learning" "3" KEYWORD 1 "";
              mkWord 0 "neural networks" "5" NOISE 0 ""] ->
        order y <= order w) /\
    ((related w <> "" \/
      exists l, term_list ["neural networks"] = term_list l) ->
     exists out : Queue * Z * string,
       undo (mkWordList [mkWord 0 "deep learning" "3" KEYWORD 1 "";
                         mkWord 0 "neural networks" "5" NOISE 0 ""] None)
            (term_list ["neural networks"]) NONE "" 0
       = Ok (mkWordList (before ++ marked w NONE (-1) "" :: after) None,
             out)) /\
    (related w = "" ->
     (exists l, term_list ["neural networks"] = plain_list l) ->
     undo (mkWordList [mkWord 0 "deep learning" "3" KEYWORD 1 "";
                       mkWord 0 "neural networks" "5" NOISE 0 ""] None)
          (term_list ["neural networks"]) NONE "" 0
     = Raise AttributeError).
Proof.
  apply (undo_reverts_the_last_classified
           (mkWordList [mkWord 0 "deep learning" "3" KEYWORD 1 "";
                        mkWord 0 "neural networks" "5" NOISE 0 ""] None)
           (term_list ["neural networks"]) NONE "" 0
           (mkWord 0 "neural networks" "5" NOISE 0 "")).
  - simpl. repeat constructor; simpl; intuition discriminate.
  - simpl. right; left; reflexivity.
  - simpl. lia.
Defined.

(** ** Edge cases of the actions *)

(** X12. On a store without items every action of the session raises: classify
    and postpone at [get_last_classified_order], undo at
    [get_last_classified_term]. *)
Theorem step_on_empty_store_raises :
  forall (review : Label) (s : Session) (a : Action),
    items (terms s) = [] -> step review s a = Raise ValueError.
Proof.
  intros review s a Hempty.
  destruct a as [label t | t |]; simpl;
    unfold do_classify, classify, do_postpone, undo, undo_with,
      get_last_classified_term, get_last_classified_word,
      get_last_classified_order;
    rewrite Hempty; reflexivity.
Qed.

Lemma step_on_empty_store_raises_witness :
  step NONE (mkSession (mkWordList [] None) (term_list []) "" 0) Undo
  = Raise ValueError.
Proof.
  apply (step_on_empty_store_raises NONE
           (mkSession (mkWordList [] None) (term_list []) "" 0) Undo).
  reflexivity.
Defined.

(** X13. [classify] on a term whose string the store does not have returns
    without writing the store; with no group active the string still
    becomes the anchor. *)
Theorem classify_absent_term :
  forall (label : Label) (terms : WordList) (review : Label) (t : Word)
         (key : string) (cnt : Z),
    items terms <> [] ->
    ~ In (word t) (map word (items terms)) ->
    exists (queue : Queue) (cnt' : Z),
      classify label terms review t key cnt
      = Ok (terms, (queue, cnt',
                    if cnt <=? 0 then word t else key)).
Proof.
  intros label terms review t key cnt Hne Hn.
  rewrite classify_store.
  destruct (get_last_classified_order_nonempty terms Hne) as [last ->].
  cbn [bind]. rewrite mark_word_loop_absent by exact Hn.
  destruct terms as [l h]. cbn [items csv_header]. eauto.
Qed.

Lemma classify_absent_term_witness :
  exists (queue : Queue) (cnt' : Z),
    classify KEYWORD
      (mkWordList [mkWord 0 "deep learning" "3" NONE (-1) ""] None)
      NONE (mkWord 0 "neural networks" "5" NONE (-1) "") "" 0
    = Ok (mkWordList [mkWord 0 "deep learning" "3" NONE (-1) ""] None,
          (queue, cnt', "neural networks")).
Proof.
  apply (classify_absent_term KEYWORD
           (mkWordList [mkWord 0 "deep learning" "3" NONE (-1) ""] None)
           NONE (mkWord 0 "neural networks" "5" NONE (-1) "") "" 0).
  - discriminate.
  - simpl. intros [E | []]. discriminate.
Defined.

(** ** The reset of a review session *)

Lemma reset_order_related_orders (terms : WordList) (w : Word) :
  In w (items (reset_order_related terms)) -> order w = -1 /\ related w = "".
Proof.
  unfold reset_order_related. cbn [items]. intros H.
  apply in_map_iff in H as [x [<- _]]. split; reflexivity.
Qed.

Lemma get_last_classified_order_reset (terms : WordList) :
  items terms <> [] ->
  get_last_classified_order (reset_order_related terms) = Ok (-1).
Proof.
  intros Hne. unfold get_last_classified_order.
  destruct (py_max (map order (items (reset_order_related terms))))
    as [m|e] eqn:E; cbn [bind].
  - apply py_max_spec in E as [Hm _].
    apply in_map_iff in Hm as [y [Hy Hin]].
    apply reset_order_related_orders in Hin as [Ho _].
    rewrite Ho in Hy. subst m. reflexivity.
  - unfold reset_order_related in E. cbn [items] in E.
    destruct (items terms); [contradiction | discriminate].
Qed.

(** X14. When a review session starts on a label other than the one recorded
    for the data file, the history is dropped: every term keeps its index,
    string, count and label, every order is [-1] and every related string
    is empty, so the first term classified afterwards gets the order [0]. *)
Theorem review_reset_restarts_the_orders :
  forall (terms : WordList) (review label : Label) (last_review : string)
         (t : Word) (key : string) (cnt : Z),
    review <> NONE ->
    Label_name review <> last_review ->
    In (word t) (map word (items terms)) ->
    let terms0 := review_reset terms review last_review in
    map identity (items terms0) = map identity (items terms) /\
    map group (items terms0) = map group (items terms) /\
    (forall w, In w (items terms0) -> order w = -1 /\ related w = "") /\
    exists (terms' : WordList) (out : Queue * Z * string) (w' : Word),
      classify label terms0 review t key cnt = Ok (terms', out) /\
      find (fun w => String.eqb (word w) (word t)) (items terms') = Some w' /\
      order w' = 0.
Proof.
  intros terms review label last_review t key cnt Hrev Hlast Hin terms0.
  assert (E : terms0 = reset_order_related terms).
  { unfold terms0, review_reset.
    destruct (Label_eqb_spec review NONE) as [? | _]; [contradiction|].
    destruct (String.eqb_spec (Label_name review) last_review)
      as [? | _]; [contradiction|]. reflexivity. }
  rewrite E. clear E terms0.
  assert (Hw : map word (items (reset_order_related terms))
               = map word (items terms)).
  { unfold reset_order_related. cbn [items]. rewrite map_map. reflexivity. }
  split; [|split; [|split]].
  - unfold reset_order_related. cbn [items]. rewrite map_map. reflexivity.
  - unfold reset_order_related. cbn [items]. rewrite map_map. reflexivity.
  - apply reset_order_related_orders.
  - rewrite <- Hw in Hin.
    rewrite classify_store, get_last_classified_order_reset.
    + cbn [bind].
      destruct (mark_word_loop_find _ _ label (-1 + 1) key Hin)
        as (w & _ & _ & Hf).
      do 3 eexists. split; [reflexivity|]. cbn [items]. rewrite Hf.
      split; reflexivity.
    + intros E. unfold reset_order_related in Hin. cbn [items] in Hin.
      rewrite E in Hin. contradiction.
Qed.

Lemma review_reset_restarts_the_orders_witness :
  let terms0 :=
    review_reset
      (mkWordList [mkWord 0 "deep learning" "3" KEYWORD 4 "neural networks";
                   mkWord 0 "neural networks" "5" KEYWORD 3 ""] None)
      KEYWORD "noise" in
  map identity (items terms0)
  = map identity
      [mkWord 0 "deep learning" "3" KEYWORD 4 "neural networks";
       mkWord 0 "neural networks" "5" KEYWORD 3 ""] /\
  map group (items terms0)
  = map group
      [mkWord 0 "deep learning" "3" KEYWORD 4 "neural networks";
       mkWord 0 "neural networks" "5" KEYWORD 3 ""] /\
  (forall w, In w (items terms0) -> order w = -1 /\ related w = "") /\
  exists (terms' : WordList) (out : Queue * Z * string) (w' : Word),
    classify NOISE terms0 KEYWORD
      (mkWord 0 "neural networks" "5" KEYWORD (-1) "") "" 0
    = Ok (terms', out) /\
    find (fun w => String.eqb (word w) "neural networks") (items terms')
    = Some w' /\
    order w' = 0.
Proof.
  apply (review_reset_restarts_the_orders
           (mkWordList
              [mkWord 0 "deep learning" "3" KEYWORD 4 "neural networks";
               mkWord 0 "neural networks" "5" KEYWORD 3 ""] None)
           KEYWORD NOISE "noise"
           (mkWord 0 "neural networks" "5" KEYWORD (-1) "") "" 0).
  - discriminate.
  - discriminate.
  - simpl. right; left; reflexivity.
Defined.

(** ** The lines of a label window *)

Lemma insert_by_order_perm (w : Word) (l : list Word) :
  Permutation (insert_by_order w l) (w :: l).
Proof.
  induction l as [|x l IH]; simpl; [reflexivity|].
  destruct (order w <=? order x); [reflexivity|].
  rewrite IH. apply perm_swap.
Qed.

Lemma sorted_by_order_perm (l : list Word) :
  Permutation (sorted_by_order l) l.
Proof.
  induction l as [|w l IH]; simpl; [reflexivity|].
  rewrite insert_by_order_perm. now constructor.
Qed.

Lemma insert_by_order_sorted (w : Word) (l : list Word) :
  StronglySorted by_order l -> StronglySorted by_order (insert_by_order w l).
Proof.
  induction 1 as [|x l Hs IH Hx]; simpl.
  - repeat constructor.
  - destruct (order w <=? order x) eqn:E.
    + apply Z.leb_le in E. constructor; [now constructor|].
      constructor; [exact E|].
      eapply Forall_impl; [|exact Hx].
      unfold by_order. intros y Hy. lia.
    + apply Z.leb_gt in E. constructor; [exact IH|].
      apply (Permutation_Forall (Permutation_sym (insert_by_order_perm w l))).
      constructor; [unfold by_order; lia | exact Hx].
Qed.

Lemma sorted_by_order_sorted (l : list Word) :
  StronglySorted by_order (sorted_by_order l).
Proof.
  induction l as [|w l IH]; simpl; [constructor|].
  now apply insert_by_order_sorted.
Qed.

Lemma insert_by_order_first (w : Word) (l : list Word) :
  Forall (by_order w) l -> insert_by_order w l = w :: l.
Proof.
  destruct l as [|x l]; simpl; [reflexivity|].
  intros H. inversion H as [|y l' Hx _]; subst. unfold by_order in Hx.
  now replace (order w <=? order x) with true
    by (symmetry; apply Z.leb_le; exact Hx).
Qed.

Lemma filter_insert_by_order (p : Word -> bool) (w : Word) (l : list Word) :
  StronglySorted by_order l ->
  filter p (insert_by_order w l)
  = if p w then insert_by_order w (filter p l) else filter p l.
Proof.
  induction 1 as [|x l Hs IH Hx]; simpl.
  - destruct (p w); reflexivity.
  - destruct (order w <=? order x) eqn:E.
    + simpl. destruct (p w); [|reflexivity].
      symmetry. apply insert_by_order_first.
      apply Z.leb_le in E.
      assert (Hall : Forall (by_order w) (x :: l)).
      { constructor; [exact E|].
        eapply Forall_impl; [|exact Hx].
        unfold by_order. intros y Hy. lia. }
      apply Forall_forall. intros y Hy.
      change (if p x then x :: filter p l else filter p l)
        with (filter p (x :: l)) in Hy.
      apply filter_In in Hy as [Hy _].
      exact (proj1 (Forall_forall _ _) Hall y Hy).
    + simpl. rewrite IH. destruct (p x), (p w); simpl; try reflexivity.
      now rewrite E.
Qed.

Lemma filter_sorted_by_order (p : Word -> bool) (l : list Word) :
  filter p (sorted_by_order l) = sorted_by_order (filter p l).
Proof.
  induction l as [|w l IH]; simpl; [reflexivity|].
  rewrite filter_insert_by_order by apply sorted_by_order_sorted.
  rewrite IH. destruct (p w); reflexivity.
Qed.

(** X15. [Win.assign_lines] shows the strings of exactly the terms that carry
    the label of the window, each once, in the order of their
    classification. *)
Theorem Win_assign_lines_sorted :
  forall (label : option Label) (terms : list Word),
    exists shown : list Word,
      Win_assign_lines label terms = map word shown /\
      StronglySorted by_order shown /\
      Permutation shown (filter (has_label label) terms).
Proof.
  intros label terms.
  exists (sorted_by_order (filter (has_label label) terms)).
  split; [|split].
  - unfold Win_assign_lines. now rewrite filter_sorted_by_order.
  - apply sorted_by_order_sorted.
  - apply sorted_by_order_perm.
Qed.

(** X16. [Win.assign_lines] sorts and then filters, [PtWin.assign_lines]
    filters and then sorts: both windows list the same terms in the same
    order. *)
Theorem Win_and_PtWin_assign_the_same_lines :
  forall (label : option Label) (terms : list Word),
    Win_assign_lines label terms
    = map word (PtWin_assign_lines label terms).
Proof.
  intros label terms. unfold Win_assign_lines, PtWin_assign_lines.
  now rewrite filter_sorted_by_order.
Qed.

(** ** Keys that match no term *)

(** X17. A key that is empty or has a whitespace character in it is a token of
    no string: [_word_contains] is false for it whatever the term is, so a
    term of several words, taken as the key, matches no term. *)
Theorem _word_contains_rejects_spaced_key :
  forall string' substring : string,
    substring = "" \/ no_space substring = false ->
    _word_contains string' substring = false.
Proof.
  intros s k Hk.
  destruct (_word_contains s k) eqn:E; [|reflexivity].
  exfalso. unfold _word_contains, split in E.
  apply existsb_exists in E as [x [Hx E]].
  apply String.eqb_eq in E. subst x.
  apply (split_from_tokens k s "" eq_refl) in Hx.
  destruct Hx as (Hne & Hns & _).
  destruct Hk as [Hk | Hk]; [contradiction | congruence].
Qed.

Lemma _word_contains_rejects_spaced_key_witness :
  _word_contains "networks topology" "neural networks" = false.
Proof.
  apply (_word_contains_rejects_spaced_key
           "networks topology" "neural networks").
  right. reflexivity.
Defined.
